(** * Zombie Survivor service worker: cache routing, cache lifecycle and
      control messages.

    A shallow embedding of [service-worker.js].  The repository ships two
    generations of the worker: the first one (cache [zombie-survivor-v1]) is
    embedded in module [V1], the current one (caches [zombie-static-v2.0] and
    [zombie-dynamic-v2.0]) at top level.

    Modelling conventions.
    - JavaScript strings are [string]; [includes], [split] and [pop] are
      written out as recursive functions.
    - The platform's [CacheStorage] is an ordered association list from
      bucket name to [Cache]; a [Cache] is an ordered association list from
      request URL to response.  Order is kept because [caches.keys()]
      enumerates in creation order and [caches.match] answers with the first
      bucket that has a match.
    - A promise that the handler hands to [respondWith] is described by its
      [Outcome]: resolved with a response, resolved with [undefined], or
      rejected.
    - What a handler does to the outside world is an ordered trace of
      [Effect]s; cache writes of the fetch handler are not awaited by the
      response path, so they are reported as pending effects and applied to
      the store by [settle].
    - The environment's choices are explicit arguments: the result of the one
      [fetch] a request triggers ([NetResult]) and, for bucket deletion,
      which [caches.delete] calls reject ([string -> bool]).
    - The platform's own rules for the cache are part of the model:
      [caches.match] never matches a request that is not a GET, and
      [cache.put] rejects, writing nothing, for a request that is not a GET,
      for a URL that is not http(s) and for a response with [Vary: *].  The
      handlers neither await nor catch that rejection; it shows in the trace
      as [EPutRejected].  Matching on the headers a stored response varies on
      is left to the platform: an entry is found by method and URL. *)

From Stdlib Require Import String Ascii List Bool Arith Lia.
Import ListNotations.
Open Scope list_scope.
Open Scope string_scope.

(** ** JavaScript string primitives *)

(** [s.startsWith(t)] *)
Fixpoint startsWith (s t : string) : bool :=
  match t, s with
  | EmptyString, _ => true
  | String _ _, EmptyString => false
  | String b t', String a s' => Ascii.eqb a b && startsWith s' t'
  end.

(** [s.includes(t)]: [t] occurs somewhere in [s]. *)
Fixpoint includes (s t : string) : bool :=
  startsWith s t ||
  match s with
  | EmptyString => false
  | String _ s' => includes s' t
  end.

(** [s.endsWith(t)] *)
Fixpoint endsWith (s t : string) : bool :=
  String.eqb s t ||
  match s with
  | EmptyString => false
  | String _ s' => endsWith s' t
  end.

(** [s.split(sep)] for a one-character separator; the result is never empty. *)
Fixpoint split (sep : ascii) (s : string) : list string :=
  match s with
  | EmptyString => [EmptyString]
  | String c s' =>
      if Ascii.eqb c sep then EmptyString :: split sep s'
      else match split sep s' with
           | [] => [String c EmptyString]
           | seg :: segs => String c seg :: segs
           end
  end.

(** [l.pop()] read as a value: the last element ([undefined] on an empty
    array). *)
Fixpoint pop (l : list string) : option string :=
  match l with
  | [] => None
  | [x] => Some x
  | _ :: l' => pop l'
  end.

(** [file.split('/').pop()] *)
Definition basename (file : string) : string :=
  match pop (split "/" file) with
  | Some seg => seg
  | None => "undefined"
  end.

(** [url.protocol] of a serialized URL: the scheme with its colon. *)
Fixpoint protocol (href : string) : string :=
  match href with
  | EmptyString => EmptyString
  | String c rest =>
      if Ascii.eqb c ":" then ":" else String c (protocol rest)
  end.

(** ** Requests and responses *)

Inductive ResponseType : Type :=
| Basic | Cors | Default | Error | Opaque | OpaqueRedirect.

Record Response : Type := mkResponse {
  status : nat;
  statusText : string;
  headers : list (string * string);
  body : string;
  type : ResponseType
}.

(** [event.request]: its method (upper case, as the platform normalises
    it), its URL and what [headers.get('accept')] returns ([None] for
    [null]). *)
Record Request : Type := mkRequestWith {
  method : string;
  url : string;
  accept : option string
}.

(** A GET request, the usual case. *)
Abbreviation mkRequest := (mkRequestWith "GET").

Definition is_get (req : Request) : bool := String.eqb (method req) "GET".

(** The scheme is http or https. *)
Definition is_http (href : string) : bool :=
  String.eqb (protocol href) "http:" || String.eqb (protocol href) "https:".

(** Header names compare without regard to case. *)
Definition lower_ascii (c : ascii) : ascii :=
  let n := nat_of_ascii c in
  if Nat.leb 65 n && Nat.leb n 90 then ascii_of_nat (n + 32) else c.

Fixpoint lower (s : string) : string :=
  match s with
  | EmptyString => EmptyString
  | String c s' => String (lower_ascii c) (lower s')
  end.

(** [headers.get(name)] on a list of headers *)
Fixpoint get_header (hs : list (string * string)) (name : string)
    : option string :=
  match hs with
  | [] => None
  | (n, v) :: hs' =>
      if String.eqb (lower n) (lower name) then Some v else get_header hs' name
  end.

(** [response.headers.get('vary')] *)
Definition vary (r : Response) : option string := get_header (headers r) "vary".

(** The response has a [Vary] header that names [*]. *)
Definition vary_star (r : Response) : bool :=
  match vary r with
  | Some v => includes v "*"
  | None => false
  end.

(** When [cache.put(request, response)] fulfils; otherwise it rejects and
    writes nothing. *)
Definition put_accepts (req : Request) (r : Response) : bool :=
  is_get req && is_http (url req) && negb (vary_star r).

(** [response.clone()]: an independent copy with the same content. *)
Definition clone (r : Response) : Response := r.

(** [new Response(body, init)] for a string body: header names are lower
    case, and a body given as a string brings the content type
    [text/plain;charset=UTF-8] unless [init] names one. *)
Definition new_Response (b : string) (st : nat) (txt : string)
    (hs : list (string * string)) : Response :=
  let hs' := map (fun h => (lower (fst h), snd h)) hs in
  mkResponse st txt
    (match get_header hs' "content-type" with
     | Some _ => hs'
     | None => (hs' ++ [("content-type", "text/plain;charset=UTF-8")])%list
     end)
    b Default.

(** ** The cache store *)

Definition Cache : Type := list (string * Response).
Definition CacheStorage : Type := list (string * Cache).

Fixpoint cache_match (c : Cache) (key : string) : option Response :=
  match c with
  | [] => None
  | (k, r) :: c' => if String.eqb k key then Some r else cache_match c' key
  end.

(** [cache.put(request, response)]: any entry for the key is replaced. *)
Definition cache_put (c : Cache) (key : string) (r : Response) : Cache :=
  (filter (fun e => negb (String.eqb (fst e) key)) c ++ [(key, r)])%list.

(** [caches.match(request)]: the first bucket, in creation order, that has
    an entry. *)
Fixpoint caches_match (cs : CacheStorage) (key : string) : option Response :=
  match cs with
  | [] => None
  | (_, c) :: cs' =>
      match cache_match c key with
      | Some r => Some r
      | None => caches_match cs' key
      end
  end.

(** [caches.keys()] *)
Definition caches_keys (cs : CacheStorage) : list string := map fst cs.

Definition caches_has (cs : CacheStorage) (name : string) : bool :=
  existsb (String.eqb name) (caches_keys cs).

(** The bucket stored under a name, if any. *)
Fixpoint caches_get (cs : CacheStorage) (name : string) : option Cache :=
  match cs with
  | [] => None
  | (n, c) :: cs' => if String.eqb n name then Some c else caches_get cs' name
  end.

(** [caches.open(name)] creates the bucket when it is missing. *)
Definition caches_open (cs : CacheStorage) (name : string) : CacheStorage :=
  if caches_has cs name then cs else (cs ++ [(name, [])])%list.

(** [caches.open(name).then(cache => cache.put(key, r))] *)
Definition caches_put (cs : CacheStorage) (name key : string) (r : Response)
    : CacheStorage :=
  map (fun b => if String.eqb (fst b) name
                then (fst b, cache_put (snd b) key r) else b)
      (caches_open cs name).

(** A [caches.delete(name)] that fulfils. *)
Definition caches_delete (cs : CacheStorage) (name : string) : CacheStorage :=
  filter (fun b => negb (String.eqb (fst b) name)) cs.

(** ** Effects and outcomes *)

(** Replies posted on [event.ports[0]]. *)
Inductive Reply : Type :=
| CACHE_INFO (cacheNames : list string)
| CACHE_CLEARED.

(** One observable action of a handler.  [EPut] is a
    [caches.open(bucket).then(cache => cache.put(...))] whose put fulfilled,
    [EPutRejected] one whose put rejected after the bucket was opened.
    [EDelete name true] is a [caches.delete(name)] that fulfilled,
    [EDelete name false] one that rejected and left the bucket in place. *)
Inductive Effect : Type :=
| EPut (bucket key : string) (r : Response)
| EPutRejected (bucket key : string) (r : Response)
| EDelete (bucket : string) (fulfilled : bool)
| EPost (m : Reply)
| ESkipWaiting
| EClaim.

Definition apply_effect (cs : CacheStorage) (e : Effect) : CacheStorage :=
  match e with
  | EPut bucket key r => caches_put cs bucket key r
  | EPutRejected bucket _ _ => caches_open cs bucket
  | EDelete bucket true => caches_delete cs bucket
  | _ => cs
  end.

(** [caches.open(bucket).then(cache => { cache.put(request, r) })]: the
    handler starts it and does not look at its outcome. *)
Definition cache_put_effect (bucket : string) (req : Request) (r : Response)
    : Effect :=
  if put_accepts req r then EPut bucket (url req) r
  else EPutRejected bucket (url req) r.

(** [caches.match(request)] for a request object. *)
Definition request_match (cs : CacheStorage) (req : Request)
    : option Response :=
  if is_get req then caches_match cs (url req) else None.

(** The store once every effect of a trace has taken place. *)
Definition settle (cs : CacheStorage) (trace : list Effect) : CacheStorage :=
  fold_left apply_effect trace cs.

(** What the page gets for one fetch event. *)
Inductive Outcome : Type :=
| NotIntercepted                      (* the handler returned without respondWith *)
| Resolved (r : option Response)      (* [None]: the promise resolved with undefined *)
| Rejected.                           (* the promise rejected *)

(** The result of [fetch(event.request)]. *)
Inductive NetResult : Type :=
| NetOk (r : Response)
| NetFail.

(** What follows the first [://] of a URL. *)
Fixpoint after_scheme (href : string) : option string :=
  match href with
  | EmptyString => None
  | String c rest =>
      if startsWith href "://"
      then match rest with
           | String _ (String _ tail) => Some tail
           | _ => None
           end
      else after_scheme rest
  end.

(** The serialized form of an absolute URL: one that stops after the host
    gets the path [/]; any other is taken as written. *)
Definition serialize (href : string) : string :=
  match after_scheme href with
  | Some rest =>
      if includes rest "/" || includes rest "?" || includes rest "#"
      then href else href ++ "/"
  | None => href
  end.

(** Relative URLs are resolved against the worker's origin. *)
Definition resolve (origin u : string) : string :=
  if startsWith u "/" then origin ++ u else serialize u.

(** ** First generation of the worker *)

Module V1.

Definition CACHE_NAME : string := "zombie-survivor-v1".

(** [true] when the fetch handler goes on to [respondWith]. *)
Definition intercepts (req : Request) : bool :=
  negb (includes (url req) "firebase" ||
        includes (url req) ".mp4" ||
        includes (url req) ".mp3").

Definition fetch_handler (origin : string) (net : NetResult)
    (cs : CacheStorage) (req : Request) : Outcome * list Effect :=
  if negb (intercepts req) then (NotIntercepted, [])
  else
    match request_match cs req with
    | Some response => (Resolved (Some response), [])
    | None =>
        match net with
        | NetOk response =>
            if negb (Nat.eqb (status response) 200) ||
               negb (match type response with Basic => true | _ => false end)
            then (Resolved (Some response), [])
            else (Resolved (Some response),
                  [cache_put_effect CACHE_NAME req (clone response)])
        | NetFail =>
            match accept req with
            | None => (Rejected, [])
            | Some a =>
                if includes a "text/html"
                then (Resolved (caches_match cs (resolve origin "/index.html")), [])
                else (Resolved None, [])
            end
        end
    end.

End V1.

(** ** Current generation: constants *)

Definition STATIC_CACHE : string := "zombie-static-v2.0".
Definition DYNAMIC_CACHE : string := "zombie-dynamic-v2.0".

Definition STATIC_FILES : list string :=
  [ "/";
    "/index.html";
    "/manifest.json";
    "/logozombie.png";
    "https://cdn.tailwindcss.com";
    "https://fonts.googleapis.com/css2?family=Orbitron:wght@400;900&family=Inter:wght@400;500;700&display=swap";
    "https://cdn-icons-png.flaticon.com/512/3408/3408545.png";
    "https://cdn-icons-png.flaticon.com/512/4140/4140037.png";
    "https://cdn-icons-png.flaticon.com/512/1154/1154443.png";
    "https://cdn-icons-png.flaticon.com/512/606/606553.png";
    "https://cdn-icons-png.flaticon.com/512/2966/2966327.png";
    "https://cdn-icons-png.flaticon.com/512/2590/2590525.png";
    "https://cdn-icons-png.flaticon.com/512/1066/1066744.png";
    "https://cdn-icons-png.flaticon.com/512/1067/1067357.png" ].

Definition FIREBASE_FILES : list string :=
  [ "https://www.gstatic.com/firebasejs/10.8.0/firebase-app.js";
    "https://www.gstatic.com/firebasejs/10.8.0/firebase-auth.js";
    "https://www.gstatic.com/firebasejs/10.8.0/firebase-firestore.js" ].

(** ** Request classification *)

(** The four exits of the fetch handler, in source order. *)
Inductive Route : Type :=
| Passthrough            (* ws: / wss: -- plain return *)
| ApiNetworkFirst        (* firebase / googleapis *)
| CacheFirst             (* static asset *)
| DefaultNetworkFirst.   (* everything else *)

(** The routing decision as the specification names it. *)
Inductive RoutingDecision : Type :=
| decide_passthrough | decide_network_first | decide_cache_first.

Definition decision (r : Route) : RoutingDecision :=
  match r with
  | Passthrough => decide_passthrough
  | ApiNetworkFirst | DefaultNetworkFirst => decide_network_first
  | CacheFirst => decide_cache_first
  end.

(** [files.some(file => href.includes(file.split('/').pop()))] *)
Definition static_match (files : list string) (href : string) : bool :=
  existsb (fun file => includes href (basename file)) files.

(** The same test read as the specification words it: the URL ends with the
    basename of some entry. *)
Definition spec_static_match (files : list string) (href : string) : bool :=
  existsb (fun file => endsWith href (basename file)) files.

Definition is_socket (href : string) : bool :=
  String.eqb (protocol href) "ws:" || String.eqb (protocol href) "wss:".

Definition is_api (href : string) : bool :=
  includes href "firebase" || includes href "googleapis".

(** The chain of tests of the fetch handler, for a given static asset list. *)
Definition classify_with (files : list string) (req : Request) : Route :=
  if is_socket (url req) then Passthrough
  else if is_api (url req) then ApiNetworkFirst
  else if static_match files (url req) then CacheFirst
  else DefaultNetworkFirst.

Definition classify (req : Request) : Route := classify_with STATIC_FILES req.

(** ** Strategy execution *)

Definition offline_page : Response :=
  new_Response
    "<h1>Zombie Survivor - Modo Offline</h1><p>No hay conexión a internet.</p>"
    200 "" [("Content-Type", "text/html")].

Definition offline_error : Response :=
  new_Response "" 408 "Offline" [].

(** The [then] callback shared by the two network-first branches: a 200 is
    copied into the dynamic bucket, the live response goes to the caller. *)
Definition store_dynamic (req : Request) (response : Response) : list Effect :=
  if Nat.eqb (status response) 200
  then [cache_put_effect DYNAMIC_CACHE req (clone response)]
  else [].

(** Branch for firebase / googleapis URLs. *)
Definition api_network_first (net : NetResult) (cs : CacheStorage)
    (req : Request) : Outcome * list Effect :=
  match net with
  | NetOk response => (Resolved (Some response), store_dynamic req response)
  | NetFail => (Resolved (request_match cs req), [])
  end.

(** Branch for static assets. *)
Definition cache_first (net : NetResult) (cs : CacheStorage)
    (req : Request) : Outcome * list Effect :=
  match request_match cs req with
  | Some cachedResponse => (Resolved (Some cachedResponse), [])
  | None =>
      match net with
      | NetOk response =>
          if negb (Nat.eqb (status response) 200)
          then (Resolved (Some response), [])
          else (Resolved (Some response),
                [cache_put_effect STATIC_CACHE req (clone response)])
      | NetFail => (Resolved None, [])
      end
  end.

(** The final branch of the handler. *)
Definition default_network_first (origin : string) (net : NetResult)
    (cs : CacheStorage) (req : Request) : Outcome * list Effect :=
  match net with
  | NetOk response => (Resolved (Some response), store_dynamic req response)
  | NetFail =>
      match request_match cs req with
      | Some cachedResponse => (Resolved (Some cachedResponse), [])
      | None =>
          match accept req with
          | None => (Rejected, [])
          | Some a =>
              if includes a "text/html"
              then match caches_match cs (resolve origin "/") with
                   | Some homePage => (Resolved (Some homePage), [])
                   | None => (Resolved (Some offline_page), [])
                   end
              else (Resolved (Some offline_error), [])
          end
      end
  end.

Definition execute (origin : string) (route : Route) (net : NetResult)
    (cs : CacheStorage) (req : Request) : Outcome * list Effect :=
  match route with
  | Passthrough => (NotIntercepted, [])
  | ApiNetworkFirst => api_network_first net cs req
  | CacheFirst => cache_first net cs req
  | DefaultNetworkFirst => default_network_first origin net cs req
  end.

(** The fetch listener. *)
Definition fetch_handler (origin : string) (net : NetResult)
    (cs : CacheStorage) (req : Request) : Outcome * list Effect :=
  execute origin (classify req) net cs req.

(** ** Version management and activation *)

Definition currentBuckets : list string := [STATIC_CACHE; DYNAMIC_CACHE].

(** The names the activate listener hands to [caches.delete]. *)
Definition prune (cacheNames : list string) : list string :=
  filter (fun cacheName => negb (String.eqb cacheName STATIC_CACHE) &&
                           negb (String.eqb cacheName DYNAMIC_CACHE))
         cacheNames.

(** [Promise.all(names.map(name => caches.delete(name)))]: every deletion is
    started; the combined promise fulfils only if none of them rejects. *)
Definition delete_all (rejects : string -> bool) (names : list string)
    : list Effect :=
  map (fun name => EDelete name (negb (rejects name))) names.

Definition all_fulfilled (rejects : string -> bool) (names : list string)
    : bool :=
  negb (existsb rejects names).

(** The activate listener: prune, then claim the open pages. *)
Definition activate (rejects : string -> bool) (cs : CacheStorage)
    : list Effect :=
  let doomed := prune (caches_keys cs) in
  (delete_all rejects doomed ++
   (if all_fulfilled rejects doomed then [EClaim] else []))%list.

(** ** Control messages *)

(** [type]: [event.data.type] when [event.data] is truthy and carries a
    string type; [has_port]: whether [event.ports[0]] exists. *)
Record MessageEvent : Type := mkMessage {
  data_type : option string;
  has_port : bool
}.

Definition type_is (ev : MessageEvent) (t : string) : bool :=
  match data_type ev with
  | Some t' => String.eqb t' t
  | None => false
  end.

(** [event.ports[0].postMessage(m)]; without a port the call throws and
    nothing is posted. *)
Definition post (ev : MessageEvent) (m : Reply) : list Effect :=
  if has_port ev then [EPost m] else [].

Definition clear_cache (rejects : string -> bool) (cs : CacheStorage)
    (ev : MessageEvent) : list Effect :=
  let cacheNames := caches_keys cs in
  (delete_all rejects cacheNames ++
   (if all_fulfilled rejects cacheNames then post ev CACHE_CLEARED else []))%list.

(** The message listener: three independent tests on the message type. *)
Definition message_handler (rejects : string -> bool) (cs : CacheStorage)
    (ev : MessageEvent) : list Effect :=
  ((if type_is ev "SKIP_WAITING" then [ESkipWaiting] else []) ++
   (if type_is ev "GET_CACHE_INFO"
    then post ev (CACHE_INFO (caches_keys cs)) else []) ++
   (if type_is ev "CLEAR_CACHE" then clear_cache rejects cs ev else []))%list.

(** ** Steady state *)

(** Events the activated worker reacts to, each with the environment's
    answers for it. *)
Inductive Event : Type :=
| EvFetch (req : Request) (net : NetResult)
| EvMessage (ev : MessageEvent) (rejects : string -> bool)
| EvOther.   (* sync, push, notificationclick: the cache store is not touched *)

Definition trace_of (origin : string) (cs : CacheStorage) (e : Event)
    : list Effect :=
  match e with
  | EvFetch req net => snd (fetch_handler origin net cs req)
  | EvMessage ev rejects => message_handler rejects cs ev
  | EvOther => []
  end.

Definition step (origin : string) (cs : CacheStorage) (e : Event)
    : CacheStorage :=
  settle cs (trace_of origin cs e).

Definition run (origin : string) (cs : CacheStorage) (es : list Event)
    : CacheStorage :=
  fold_left (step origin) es cs.

(** Every bucket of the store is a current one. *)
Definition only_current (cs : CacheStorage) : Prop :=
  forall name, In name (caches_keys cs) -> In name currentBuckets.

(** Every stored response has status 200. *)
Definition all_200 (cs : CacheStorage) : Prop :=
  forall name c key r,
    In (name, c) cs -> In (key, r) c -> status r = 200.

(** The replies of a trace. *)
Definition replies (trace : list Effect) : list Reply :=
  flat_map (fun e => match e with EPost m => [m] | _ => [] end) trace.

(** The writes of a trace. *)
Definition puts (trace : list Effect) : list (string * string * Response) :=
  flat_map (fun e => match e with
                     | EPut b k r => [(b, k, r)]
                     | _ => []
                     end) trace.

(** A bucket survives [delete_all] unless one of the deletions that
    fulfilled named it. *)
Definition survives (rejects : string -> bool) (names : list string)
    (name : string) : bool :=
  negb (existsb (fun n => String.eqb name n && negb (rejects n)) names).

(** Membership in [currentBuckets], as a test. *)
Definition is_current (name : string) : bool :=
  String.eqb name STATIC_CACHE || String.eqb name DYNAMIC_CACHE.

(** ** Installation *)

(** [response.ok] *)
Definition ok_status (r : Response) : bool :=
  Nat.leb 200 (status r) && Nat.leb (status r) 299.

(** What [cache.addAll] demands of each fetched response: an ok status
    other than 206 and no [Vary: *]. *)
Definition addAll_accepts (r : Response) : bool :=
  ok_status r && negb (Nat.eqb (status r) 206) && negb (vary_star r).

(** The fetches of [cache.addAll(urls)]: the batch of responses when every
    one is acceptable, [None] when the call rejects. *)
Fixpoint fetch_all (fetch_of : string -> NetResult) (urls : list string)
    : option (list (string * Response)) :=
  match urls with
  | [] => Some []
  | u :: rest =>
      match fetch_of u with
      | NetOk r =>
          if addAll_accepts r
          then match fetch_all fetch_of rest with
               | Some batch => Some ((u, r) :: batch)
               | None => None
               end
          else None
      | NetFail => None
      end
  end.

(** The writes of a successful [addAll], in list order. *)
Definition put_all (cs : CacheStorage) (name : string)
    (batch : list (string * Response)) : CacheStorage :=
  fold_left (fun acc kv => caches_put acc name (fst kv) (snd kv)) batch cs.

(** What an install listener leaves behind: the store, whether the promise
    given to [waitUntil] fulfilled, and whether [skipWaiting] was called. *)
Record InstallResult : Type := mkInstall {
  installed_store : CacheStorage;
  install_fulfilled : bool;
  skipped_waiting : bool
}.

Definition precache_list : list string :=
  (STATIC_FILES ++ FIREBASE_FILES)%list.

(** The install listener of the current worker: open the static bucket, add
    every precached URL, then skip waiting; a rejection is caught and only
    logged. *)
Definition install (origin : string) (fetch_of : string -> NetResult)
    (cs : CacheStorage) : InstallResult :=
  let opened := caches_open cs STATIC_CACHE in
  match fetch_all fetch_of (map (resolve origin) precache_list) with
  | Some batch => mkInstall (put_all opened STATIC_CACHE batch) true true
  | None => mkInstall opened true false
  end.

(** ** First generation: lifecycle and messages *)

Module V1Lifecycle.

Definition ASSETS_TO_CACHE : list string :=
  [ "/";
    "/index.html";
    "/manifest.json";
    "https://cdn.tailwindcss.com";
    "https://fonts.googleapis.com/css2?family=Orbitron:wght@400;900&display=swap";
    "https://www.gstatic.com/firebasejs/ui/2.0.0/images/auth/google.svg";
    "https://cdn-icons-png.flaticon.com/512/3408/3408545.png";
    "https://cdn-icons-png.flaticon.com/512/4140/4140037.png";
    "https://cdn-icons-png.flaticon.com/512/1154/1154443.png";
    "https://cdn-icons-png.flaticon.com/512/606/606553.png";
    "https://cdn-icons-png.flaticon.com/512/744/744465.png";
    "https://cdn-icons-png.flaticon.com/512/2966/2966327.png";
    "https://cdn-icons-png.flaticon.com/512/2590/2590525.png";
    "https://cdn-icons-png.flaticon.com/512/1066/1066744.png";
    "https://cdn-icons-png.flaticon.com/512/1067/1067357.png" ].

(** The install listener: no rejection handler, so a failed [addAll] fails
    the installation. *)
Definition install (origin : string) (fetch_of : string -> NetResult)
    (cs : CacheStorage) : InstallResult :=
  let opened := caches_open cs V1.CACHE_NAME in
  match fetch_all fetch_of (map (resolve origin) ASSETS_TO_CACHE) with
  | Some batch => mkInstall (put_all opened V1.CACHE_NAME batch) true true
  | None => mkInstall opened false false
  end.

(** The names the activate listener hands to [caches.delete]. *)
Definition prune (cacheNames : list string) : list string :=
  filter (fun cacheName => negb (String.eqb cacheName V1.CACHE_NAME))
         cacheNames.

Definition activate (rejects : string -> bool) (cs : CacheStorage)
    : list Effect :=
  let doomed := prune (caches_keys cs) in
  (delete_all rejects doomed ++
   (if all_fulfilled rejects doomed then [EClaim] else []))%list.

(** The message listener; [data] is [event.data] when it is a string. *)
Definition message_handler (data : option string) : list Effect :=
  match data with
  | Some d => if String.eqb d "skipWaiting" then [ESkipWaiting] else []
  | None => []
  end.

Inductive Event : Type :=
| EvFetch (req : Request) (net : NetResult)
| EvMessage (data : option string).

Definition trace_of (origin : string) (cs : CacheStorage) (e : Event)
    : list Effect :=
  match e with
  | EvFetch req net => snd (V1.fetch_handler origin net cs req)
  | EvMessage data => message_handler data
  end.

Definition step (origin : string) (cs : CacheStorage) (e : Event)
    : CacheStorage :=
  settle cs (trace_of origin cs e).

Definition run (origin : string) (cs : CacheStorage) (es : list Event)
    : CacheStorage :=
  fold_left (step origin) es cs.

End V1Lifecycle.

(** ** Notification clicks *)

(** A window client: its URL and whether it has a [focus] method. *)
Record WindowClient : Type := mkClient {
  client_url : string;
  can_focus : bool
}.

Inductive ClickAction : Type :=
| Focus (c : WindowClient)       (* client.focus() *)
| OpenWindow (target : string)   (* clients.openWindow(target) *)
| NoAction.

(** The [for] loop over [clientList]: the first client that passes the test
    ends it. *)
Fixpoint first_focusable (clientList : list WindowClient)
    : option WindowClient :=
  match clientList with
  | [] => None
  | client :: rest =>
      if String.eqb (client_url client) "/" && can_focus client
      then Some client
      else first_focusable rest
  end.

(** The notificationclick listener: whether the notification was closed, and
    what was done for the click.  [can_open]: [clients.openWindow] exists. *)
Definition notificationclick (action : string)
    (clientList : list WindowClient) (can_open : bool)
    : bool * ClickAction :=
  (true,
   if String.eqb action "play"
   then match first_focusable clientList with
        | Some client => Focus client
        | None => if can_open then OpenWindow "/" else NoAction
        end
   else NoAction).

(** ** Placeholder generation ([generate-videos.js]) *)

Module GenerateVideos.

(** [s.substring(n)] *)
Fixpoint drop (n : nat) (s : string) : string :=
  match n, s with
  | O, _ => s
  | S _, EmptyString => EmptyString
  | S n', String _ s' => drop n' s'
  end.

(** [s.replace(pat, rep)] for a string pattern and a replacement without
    [$]: the first occurrence only. *)
Fixpoint replace (s pat rep : string) : string :=
  if startsWith s pat then rep ++ drop (String.length pat) s
  else match s with
       | EmptyString => EmptyString
       | String c s' => String c (replace s' pat rep)
       end.

Definition newline : string := String (Ascii.ascii_of_nat 10) EmptyString.
Definition quote : string := String (Ascii.ascii_of_nat 34) EmptyString.

(** The template literal of [createVideoPlaceholder]. *)
Definition placeholder_html (color text : string) : string :=
  newline ++
  "<!DOCTYPE html>" ++ newline ++
  "<html>" ++ newline ++
  "<body>" ++ newline ++
  "  <div style=" ++ quote ++
  "width: 100px; height: 100px; background: " ++ color ++
  "; color: white; display: flex; align-items: center; justify-content: center; font-family: Arial;"
  ++ quote ++ ">" ++ newline ++
  "    " ++ text ++ newline ++
  "  </div>" ++ newline ++
  "</body>" ++ newline ++
  "</html>".

(** One call of [createVideoPlaceholder]: the file written (path and
    content) and the line logged.  An absent argument takes its default. *)
Record Placeholder : Type := mkPlaceholder {
  written_path : string;
  written_content : string;
  logged : string
}.

Definition createVideoPlaceholder (filename : string)
    (color text : option string) : Placeholder :=
  let color' := match color with Some c => c | None => "red" end in
  let text' := match text with Some t => t | None => "Zombie" end in
  mkPlaceholder (replace filename ".mp4" ".html")
                (placeholder_html color' text')
                ("Created placeholder for: " ++ filename).

End GenerateVideos.

(** * Properties *)

(** ** Strings *)

Lemma startsWith_nil (s : string) : startsWith s "" = true.
Proof. destruct s; reflexivity. Qed.

Lemma startsWith_spec (s t : string) :
  startsWith s t = true <-> exists b, s = t ++ b.
Proof.
  revert s. induction t as [|c t IH]; intros s.
  - split; [intros _; now exists s | intros _; apply startsWith_nil].
  - destruct s as [|a s]; cbn [startsWith].
    + split; [discriminate | intros [b Hb]; discriminate].
    + rewrite andb_true_iff, Ascii.eqb_eq, IH. split.
      * intros [-> [b ->]]. now exists b.
      * intros [b Hb]. injection Hb as -> ->. split; [reflexivity | now exists b].
Qed.

Lemma includes_spec (s t : string) :
  includes s t = true <-> exists a b, s = a ++ t ++ b.
Proof.
  induction s as [|c s IH].
  - cbn [includes]. rewrite orb_false_r, startsWith_spec. split.
    + intros [b Hb]. now exists "", b.
    + intros [a [b Hab]]. destruct a; [now exists b | discriminate].
  - cbn [includes]. rewrite orb_true_iff, IH, startsWith_spec. split.
    + intros [[b Hb] | [a [b Hab]]].
      * now exists "", b.
      * exists (String c a), b. simpl. now rewrite Hab.
    + intros [a [b Hab]]. destruct a as [|c' a].
      * left. now exists b.
      * right. simpl in Hab. injection Hab as _ ->. now exists a, b.
Qed.

Lemma endsWith_spec (s t : string) :
  endsWith s t = true <-> exists a, s = a ++ t.
Proof.
  induction s as [|c s IH]; cbn [endsWith].
  - rewrite orb_false_r, String.eqb_eq. split.
    + intros <-. now exists "".
    + intros [a Ha]. destruct a; [assumption | discriminate].
  - rewrite orb_true_iff, IH, String.eqb_eq. split.
    + intros [<- | [a ->]]; [now exists "" | now exists (String c a)].
    + intros [a Ha]. destruct a as [|c' a].
      * now left.
      * right. simpl in Ha. injection Ha as _ ->. now exists a.
Qed.

Lemma includes_nil (s : string) : includes s "" = true.
Proof. destruct s; reflexivity. Qed.


Lemma endsWith_includes (s t : string) :
  endsWith s t = true -> includes s t = true.
Proof.
  rewrite endsWith_spec, includes_spec. intros [a ->].
  exists a, "". f_equal. induction t; simpl; congruence.
Qed.

Lemma split_not_nil (sep : ascii) (s : string) : split sep s <> [].
Proof.
  destruct s as [|c s]; simpl; [discriminate|].
  destruct (Ascii.eqb c sep); [discriminate|].
  destruct (split sep s); discriminate.
Qed.

(** [file.split('/').pop()] is always a string: the [undefined] case of
    [basename] is never taken. *)
Lemma basename_defined (file : string) :
  exists seg, pop (split "/" file) = Some seg /\ basename file = seg.
Proof.
  unfold basename. pose proof (split_not_nil "/" file) as Hne.
  induction (split "/" file) as [|x l IH]; [contradiction|].
  destruct l as [|y l]; [now exists x|].
  destruct IH as [seg [Hseg _]]; [discriminate|].
  exists seg. change (pop (x :: y :: l)) with (pop (y :: l)).
  now rewrite Hseg.
Qed.

(** ** Classification *)

Lemma static_match_spec (files : list string) (href : string) :
  static_match files href = true <->
  exists file, In file files /\ exists a b, href = a ++ basename file ++ b.
Proof.
  unfold static_match. rewrite existsb_exists.
  split; intros [file [Hin H]]; exists file; split; trivial;
    now apply includes_spec.
Qed.

Lemma spec_static_match_spec (files : list string) (href : string) :
  spec_static_match files href = true <->
  exists file, In file files /\ exists a, href = a ++ basename file.
Proof.
  unfold spec_static_match. rewrite existsb_exists.
  split; intros [file [Hin H]]; exists file; split; trivial;
    now apply endsWith_spec.
Qed.

Lemma classify_with_cases (files : list string) (req : Request) :
  classify_with files req =
    if is_socket (url req) then Passthrough
    else if is_api (url req) then ApiNetworkFirst
    else if static_match files (url req) then CacheFirst
    else DefaultNetworkFirst.
Proof. reflexivity. Qed.

Lemma static_match_shipped (href : string) :
  static_match STATIC_FILES href = true.
Proof.
  unfold static_match, STATIC_FILES. cbn [existsb].
  change (basename "/") with "". now rewrite includes_nil.
Qed.

Lemma classify_cases (req : Request) :
  classify req =
    if is_socket (url req) then Passthrough
    else if is_api (url req) then ApiNetworkFirst
    else CacheFirst.
Proof.
  unfold classify. rewrite classify_with_cases, static_match_shipped.
  reflexivity.
Qed.



(** C3: the static asset list contains ["/"], whose basename is the empty
    string, so the static-asset test holds for every URL; every request that
    is neither ws:/wss: nor a firebase/googleapis request is handled by the
    cache-first branch, and no request reaches the default network-first
    branch. *)
Theorem C3_default_branch_unreachable :
  In "/" STATIC_FILES /\
  basename "/" = "" /\
  (forall href, static_match STATIC_FILES href = true) /\
  (forall req,
     is_socket (url req) = false -> is_api (url req) = false ->
     classify req = CacheFirst) /\
  (forall origin net cs req,
     is_socket (url req) = false -> is_api (url req) = false ->
     fetch_handler origin net cs req = cache_first net cs req) /\
  (forall req, classify req <> DefaultNetworkFirst).
Proof.
  split; [now left|]. split; [reflexivity|].
  split; [exact static_match_shipped|].
  split; [|split].
  - intros req Hs Ha. now rewrite classify_cases, Hs, Ha.
  - intros origin net cs req Hs Ha. unfold fetch_handler.
    now rewrite classify_cases, Hs, Ha.
  - intros req. rewrite classify_cases.
    destruct (is_socket (url req)), (is_api (url req)); discriminate.
Qed.

Lemma C3_default_branch_unreachable_witness :
  classify (mkRequest "https://zombie.example/api/scores.json"
                      (Some "application/json")) = CacheFirst.
Proof.
  apply (proj1 (proj2 (proj2 (proj2 C3_default_branch_unreachable))));
    reflexivity.
Defined.

(** C4 (as amended): a request whose URL ends in [.mp4] or [.mp3] is not
    intercepted by the first-generation fetch handler; the current fetch
    handler has no media rule and classifies such a request like any other:
    passthrough only for ws:/wss:, network-first for firebase/googleapis,
    cache-first otherwise. *)
Theorem C4_media_passthrough_first_generation_only
    (req : Request)
    (Hmedia : endsWith (url req) ".mp4" = true \/
              endsWith (url req) ".mp3" = true) :
  (forall origin net cs,
     V1.fetch_handler origin net cs req = (NotIntercepted, [])) /\
  (classify req = Passthrough <-> is_socket (url req) = true) /\
  (is_socket (url req) = false -> is_api (url req) = true ->
     classify req = ApiNetworkFirst) /\
  (is_socket (url req) = false -> is_api (url req) = false ->
     classify req = CacheFirst).
Proof.
  split; [|split; [|split]].
  - intros origin net cs. unfold V1.fetch_handler, V1.intercepts.
    destruct Hmedia as [H | H]; apply endsWith_includes in H; rewrite H;
      rewrite ?orb_true_r; reflexivity.
  - rewrite classify_cases.
    destruct (is_socket (url req)), (is_api (url req));
      split; congruence.
  - intros Hs Ha. now rewrite classify_cases, Hs, Ha.
  - intros Hs Ha. now rewrite classify_cases, Hs, Ha.
Qed.

Lemma C4_media_passthrough_first_generation_only_witness :
  V1.fetch_handler "https://zombie.example" NetFail []
    (mkRequest "https://zombie.example/assets/zombies/zombie1.mp4"
               (Some "video/mp4"))
  = (NotIntercepted, []).
Proof.
  apply (C4_media_passthrough_first_generation_only
           (mkRequest "https://zombie.example/assets/zombies/zombie1.mp4"
                      (Some "video/mp4"))
           (or_introl eq_refl)).
Defined.

(** C4 as stated fails on the current handler: a request for an [.mp4] file
    is classified cache-first and answered by the worker. *)
Lemma C4_media_is_intercepted :
  let req := mkRequest "https://zombie.example/assets/zombies/zombie1.mp4"
                       (Some "video/mp4") in
  endsWith (url req) ".mp4" = true /\
  classify req = CacheFirst /\
  decision (classify req) <> decide_passthrough /\
  fst (fetch_handler "https://zombie.example" NetFail [] req) <> NotIntercepted.
Proof.
  cbv zeta. split; [reflexivity|]. split; [reflexivity|].
  split; vm_compute; discriminate.
Qed.

(** ** The cache store *)

Lemma cache_match_filter_out (c : Cache) (key : string) :
  cache_match (filter (fun e => negb (String.eqb (fst e) key)) c) key = None.
Proof.
  induction c as [|[k r] c IH]; simpl; [reflexivity|].
  destruct (String.eqb k key) eqn:E; simpl; [assumption|].
  now rewrite E.
Qed.

Lemma cache_match_app_miss (c c' : Cache) (key : string) :
  cache_match c key = None ->
  cache_match (c ++ c')%list key = cache_match c' key.
Proof.
  induction c as [|[k r] c IH]; simpl; [reflexivity|].
  destruct (String.eqb k key); [discriminate | exact IH].
Qed.

Lemma cache_match_put (c : Cache) (key : string) (r : Response) :
  cache_match (cache_put c key r) key = Some r.
Proof.
  unfold cache_put.
  rewrite cache_match_app_miss by apply cache_match_filter_out.
  simpl. now rewrite String.eqb_refl.
Qed.

Lemma caches_get_app (cs cs' : CacheStorage) (name : string) :
  caches_get (cs ++ cs')%list name =
    match caches_get cs name with
    | Some c => Some c
    | None => caches_get cs' name
    end.
Proof.
  induction cs as [|[n c] cs IH]; simpl; [reflexivity|].
  destruct (String.eqb n name); [reflexivity | exact IH].
Qed.

Lemma caches_has_get (cs : CacheStorage) (name : string) :
  caches_has cs name = true <-> exists c, caches_get cs name = Some c.
Proof.
  unfold caches_has, caches_keys.
  induction cs as [|[n c] cs IH]; simpl.
  - split; [discriminate | intros [c H]; discriminate].
  - rewrite (String.eqb_sym name n).
    destruct (String.eqb n name); simpl; [|exact IH].
    split; [intros _; now exists c | reflexivity].
Qed.

Lemma caches_get_open (cs : CacheStorage) (name : string) :
  exists c, caches_get (caches_open cs name) name = Some c.
Proof.
  unfold caches_open. destruct (caches_has cs name) eqn:H.
  - now apply caches_has_get.
  - rewrite caches_get_app. destruct (caches_get cs name) as [c|].
    + now exists c.
    + simpl. rewrite String.eqb_refl. now exists [].
Qed.

Lemma caches_get_put (cs : CacheStorage) (name key : string) (r : Response) :
  exists c, caches_get (caches_put cs name key r) name = Some c /\
            cache_match c key = Some r.
Proof.
  unfold caches_put.
  destruct (caches_get_open cs name) as [c0 H0].
  revert H0. generalize (caches_open cs name) as l.
  induction l as [|[n c] l IH]; simpl; [discriminate|].
  destruct (String.eqb n name) eqn:E; simpl.
  - intros _. rewrite E. eexists. split; [reflexivity|].
    apply cache_match_put.
  - rewrite E. exact IH.
Qed.

(** ** Strategy execution *)

Lemma cache_put_effect_accepted
    (bucket : string) (req : Request) (r : Response) :
  put_accepts req r = true ->
  cache_put_effect bucket req r = EPut bucket (url req) r.
Proof. intros H. unfold cache_put_effect. now rewrite H. Qed.

Lemma cache_put_effect_rejected
    (bucket : string) (req : Request) (r : Response) :
  put_accepts req r = false ->
  cache_put_effect bucket req r = EPutRejected bucket (url req) r.
Proof. intros H. unfold cache_put_effect. now rewrite H. Qed.

Lemma request_match_get (cs : CacheStorage) (req : Request) :
  is_get req = true -> request_match cs req = caches_match cs (url req).
Proof. intros H. unfold request_match. now rewrite H. Qed.

Lemma request_match_some
    (cs : CacheStorage) (req : Request) (r : Response) :
  request_match cs req = Some r ->
  is_get req = true /\ caches_match cs (url req) = Some r.
Proof.
  unfold request_match. destruct (is_get req); [auto | discriminate].
Qed.

Lemma request_match_miss (cs : CacheStorage) (req : Request) :
  caches_match cs (url req) = None -> request_match cs req = None.
Proof. intros H. unfold request_match. now destruct (is_get req). Qed.

Lemma put_accepts_get (req : Request) (r : Response) :
  put_accepts req r = true -> is_get req = true.
Proof.
  unfold put_accepts. intros H.
  apply andb_true_iff in H. destruct H as [H _].
  apply andb_true_iff in H. tauto.
Qed.

Lemma store_dynamic_200 (req : Request) (response : Response) :
  status response = 200 ->
  store_dynamic req response = [cache_put_effect DYNAMIC_CACHE req response].
Proof. intros H. unfold store_dynamic, clone. now rewrite H. Qed.

Lemma execute_network_first_ok
    (origin : string) (route : Route) (cs : CacheStorage) (req : Request)
    (response : Response) :
  decision route = decide_network_first ->
  execute origin route (NetOk response) cs req =
    (Resolved (Some response), store_dynamic req response).
Proof. destruct route; simpl; intros H; try discriminate; reflexivity. Qed.

(** C5 (as amended): when a request is routed network-first and the network
    answers with status 200, the caller gets that very response (same
    status, same body) and the dynamic bucket exists afterwards.  The bucket
    holds the response under the request's key when the cache accepts the
    write, that is for a GET request with an http(s) URL and a response
    without [Vary: *]; for any other request the put, which the handler does
    not guard, is rejected and nothing is written.  This holds for either
    network-first branch of [execute], hence for [fetch_handler]. *)
Theorem C5_network_first_success
    (origin : string) (route : Route) (cs : CacheStorage) (req : Request)
    (response : Response)
    (Hroute : decision route = decide_network_first)
    (H200 : status response = 200) :
  let result := execute origin route (NetOk response) cs req in
  fst result = Resolved (Some response) /\
  (exists r, fst result = Resolved (Some r) /\
             status r = status response /\ body r = body response) /\
  (exists c, caches_get (settle cs (snd result)) DYNAMIC_CACHE = Some c) /\
  (put_accepts req response = true ->
     exists c, caches_get (settle cs (snd result)) DYNAMIC_CACHE = Some c /\
               cache_match c (url req) = Some response) /\
  (put_accepts req response = false ->
     settle cs (snd result) = caches_open cs DYNAMIC_CACHE) /\
  (route = classify req ->
     fetch_handler origin (NetOk response) cs req = result).
Proof.
  cbv zeta. rewrite (execute_network_first_ok origin route cs req response Hroute).
  rewrite store_dynamic_200 by assumption. simpl.
  split; [reflexivity|]. split; [now exists response|].
  split; [|split; [|split]].
  - unfold cache_put_effect. destruct (put_accepts req response); simpl.
    + destruct (caches_get_put cs DYNAMIC_CACHE (url req) response)
        as [c [Hc _]]. now exists c.
    + apply caches_get_open.
  - intros Hacc. rewrite (cache_put_effect_accepted _ _ _ Hacc). simpl.
    apply caches_get_put.
  - intros Hrej. now rewrite (cache_put_effect_rejected _ _ _ Hrej).
  - intros ->. unfold fetch_handler.
    rewrite (execute_network_first_ok origin _ cs req response Hroute).
    now rewrite store_dynamic_200.
Qed.

Lemma C5_network_first_success_witness :
  let req := mkRequest "https://firestore.googleapis.com/v1/scores"
                       (Some "application/json") in
  let response := mkResponse 200 "OK" [] "{}" Cors in
  fst (execute "https://zombie.example" (classify req) (NetOk response)
               [(STATIC_CACHE, [])] req)
  = Resolved (Some response).
Proof.
  exact (proj1 (C5_network_first_success "https://zombie.example"
                 (classify (mkRequest "https://firestore.googleapis.com/v1/scores"
                                      (Some "application/json")))
                 [(STATIC_CACHE, [])]
                 (mkRequest "https://firestore.googleapis.com/v1/scores"
                            (Some "application/json"))
                 (mkResponse 200 "OK" [] "{}" Cors)
                 eq_refl eq_refl)).
Defined.

(** C5 as stated fails: a POST to the firestore API is routed network-first
    and answered 200; the caller gets the response, the dynamic bucket is
    created, but the put is rejected and the bucket has no entry for the
    request. *)
Lemma C5_post_is_not_stored :
  let req := mkRequestWith "POST"
               "https://firestore.googleapis.com/v1/projects/zombie/documents:commit"
               (Some "*/*") in
  let response := mkResponse 200 "OK" [] "{}" Cors in
  let result := fetch_handler "https://zombie.example" (NetOk response) [] req in
  decision (classify req) = decide_network_first /\
  status response = 200 /\
  fst result = Resolved (Some response) /\
  settle [] (snd result) = [(DYNAMIC_CACHE, [])] /\
  ~ (exists c, caches_get (settle [] (snd result)) DYNAMIC_CACHE = Some c /\
               cache_match c (url req) = Some response).
Proof.
  cbv zeta. split; [reflexivity|]. split; [reflexivity|].
  split; [reflexivity|]. split; [reflexivity|].
  intros [c [Hget Hm]]. change (Some (@nil (string * Response)) = Some c) in Hget.
  injection Hget as <-. discriminate Hm.
Qed.

(** C6 (as amended): when the network fetch of a network-first request
    fails and the store has an entry for the request, either branch returns
    that entry.  Without an entry, the firebase/googleapis branch resolves
    with no response at all, whatever the request accepts; the default
    branch, for a request that carries an Accept header, returns the cached
    root document if there is one, else the synthesized offline page with
    status 200 when the header contains [text/html], and the synthesized 408
    response when it does not. *)
Theorem C6_network_first_failure
    (origin : string) (cs : CacheStorage) (req : Request) :
  (forall route cached,
     decision route = decide_network_first ->
     request_match cs req = Some cached ->
     execute origin route NetFail cs req = (Resolved (Some cached), [])) /\
  (request_match cs req = None ->
     api_network_first NetFail cs req = (Resolved None, [])) /\
  (forall a,
     request_match cs req = None ->
     accept req = Some a -> includes a "text/html" = true ->
     (forall homePage,
        caches_match cs (resolve origin "/") = Some homePage ->
        default_network_first origin NetFail cs req
          = (Resolved (Some homePage), [])) /\
     (caches_match cs (resolve origin "/") = None ->
        default_network_first origin NetFail cs req
          = (Resolved (Some offline_page), []) /\
        status offline_page = 200 /\
        includes (body offline_page)
                 "<h1>Zombie Survivor - Modo Offline</h1>" = true)) /\
  (forall a,
     request_match cs req = None ->
     accept req = Some a -> includes a "text/html" = false ->
     default_network_first origin NetFail cs req
       = (Resolved (Some offline_error), []) /\
     status offline_error = 408).
Proof.
  split; [|split; [|split]].
  - intros route cached Hr Hc.
    destruct route; try discriminate; simpl; now rewrite Hc.
  - intros Hc. simpl. now rewrite Hc.
  - intros a Hc Ha Hhtml. unfold default_network_first.
    rewrite Hc, Ha, Hhtml. split.
    + intros homePage Hh. now rewrite Hh.
    + intros Hh. rewrite Hh. repeat split.
  - intros a Hc Ha Hhtml. unfold default_network_first.
    rewrite Hc, Ha, Hhtml. split; reflexivity.
Qed.

Lemma C6_network_first_failure_witness :
  default_network_first "https://zombie.example" NetFail []
    (mkRequest "https://zombie.example/api/scores" (Some "application/json"))
  = (Resolved (Some offline_error), []).
Proof.
  apply (proj2 (proj2 (proj2
           (C6_network_first_failure "https://zombie.example" []
              (mkRequest "https://zombie.example/api/scores"
                         (Some "application/json")))))
           "application/json" eq_refl eq_refl eq_refl).
Defined.

(** C6 as stated fails: a firebase/googleapis request is routed
    network-first, yet with a failing network and no cached entry the handler
    resolves with no response, neither the offline page nor a 408, although
    the request accepts HTML. *)
Lemma C6_api_branch_has_no_fallback :
  let req := mkRequest "https://firestore.googleapis.com/v1/scores"
                       (Some "text/html") in
  decision (classify req) = decide_network_first /\
  request_match [] req = None /\
  accept req = Some "text/html" /\
  fetch_handler "https://zombie.example" NetFail [] req = (Resolved None, []).
Proof. cbv zeta. repeat split. Qed.

(** C1 (as amended): an intercepted request gets a response whenever the
    network fetch succeeds or the store has an entry for the request.  With a
    failing network and no entry, the cache-first and firebase/googleapis
    branches resolve with no response; the default network-first branch, for
    a request that carries an Accept header, always resolves to a response,
    in the worst case the synthesized 408 "Offline" response with empty
    body. *)
Theorem C1_response_or_documented_gap
    (origin : string) (net : NetResult) (cs : CacheStorage) (req : Request) :
  (classify req <> Passthrough ->
   (exists response, net = NetOk response) \/
   (exists cached, request_match cs req = Some cached) ->
   exists r, fst (fetch_handler origin net cs req) = Resolved (Some r)) /\
  (request_match cs req = None ->
   cache_first NetFail cs req = (Resolved None, []) /\
   api_network_first NetFail cs req = (Resolved None, [])) /\
  (forall a, accept req = Some a ->
   exists r,
     fst (default_network_first origin net cs req) = Resolved (Some r) /\
     (net = NetFail -> request_match cs req = None ->
      includes a "text/html" = false ->
      r = offline_error /\ status r = 408 /\ statusText r = "Offline" /\
      body r = "")).
Proof.
  split; [|split].
  - intros Hroute Hsrc. unfold fetch_handler. revert Hroute.
    rewrite classify_cases.
    destruct (is_socket (url req)); [contradiction|].
    intros _. destruct (is_api (url req)); simpl.
    + destruct net as [response|]; simpl; [now exists response|].
      destruct Hsrc as [[r Hr] | [cached Hc]]; [discriminate|].
      rewrite Hc. now exists cached.
    + unfold cache_first.
      destruct (request_match cs req) as [cached|]; [now exists cached|].
      destruct Hsrc as [[r ->] | [cached Hc]]; [|discriminate].
      destruct (negb (Nat.eqb (status r) 200)); now exists r.
  - intros Hc. unfold cache_first, api_network_first. now rewrite Hc.
  - intros a Ha. unfold default_network_first. rewrite Ha.
    destruct net as [response|].
    + exists response. split; [reflexivity | discriminate].
    + destruct (request_match cs req) as [cached|].
      * exists cached. split; [reflexivity | discriminate].
      * destruct (includes a "text/html").
        -- destruct (caches_match cs (resolve origin "/")) as [homePage|];
             eexists; (split; [reflexivity | discriminate]).
        -- exists offline_error. split; [reflexivity|]. intros _ _ _.
           repeat split.
Qed.

Lemma C1_response_or_documented_gap_witness :
  exists r,
    fst (fetch_handler "https://zombie.example"
           (NetOk (mkResponse 404 "Not Found" [] "" Basic)) []
           (mkRequest "https://zombie.example/app.js" (Some "*/*")))
    = Resolved (Some r).
Proof.
  apply (proj1 (C1_response_or_documented_gap "https://zombie.example"
                  (NetOk (mkResponse 404 "Not Found" [] "" Basic)) []
                  (mkRequest "https://zombie.example/app.js" (Some "*/*")))).
  - discriminate.
  - left. now exists (mkResponse 404 "Not Found" [] "" Basic).
Defined.

(** C1 as stated fails: a cache-first request that misses the cache while
    the network is down is intercepted and answered with no response. *)
Lemma C1_cache_first_offline_miss :
  let req := mkRequest "https://zombie.example/app.js" (Some "*/*") in
  classify req = CacheFirst /\
  fetch_handler "https://zombie.example" NetFail [] req = (Resolved None, []) /\
  ~ (exists r, fst (fetch_handler "https://zombie.example" NetFail [] req)
               = Resolved (Some r)).
Proof.
  cbv zeta. split; [reflexivity|]. split; [reflexivity|].
  intros [r Hr]. discriminate Hr.
Qed.

(** ** Cache writes *)

(** The trace of a fetch event: nothing, or the one write a branch starts
    for a 200 response. *)
Lemma execute_trace
    (origin : string) (route : Route) (net : NetResult) (cs : CacheStorage)
    (req : Request) :
  snd (execute origin route net cs req) = [] \/
  exists b r,
    net = NetOk r /\ status r = 200 /\ In b currentBuckets /\
    snd (execute origin route net cs req) = [cache_put_effect b req r].
Proof.
  unfold currentBuckets.
  destruct route; simpl.
  - now left.
  - destruct net as [response|]; simpl; [|now left].
    unfold store_dynamic, clone.
    destruct (Nat.eqb (status response) 200) eqn:E; [|now left].
    apply Nat.eqb_eq in E. right. exists DYNAMIC_CACHE, response.
    simpl. auto 10.
  - unfold cache_first, clone.
    destruct (request_match cs req); simpl; [now left|].
    destruct net as [response|]; simpl; [|now left].
    destruct (Nat.eqb (status response) 200) eqn:E; simpl; [|now left].
    apply Nat.eqb_eq in E. right. exists STATIC_CACHE, response.
    simpl. auto 10.
  - unfold default_network_first.
    destruct net as [response|]; simpl.
    + unfold store_dynamic, clone.
      destruct (Nat.eqb (status response) 200) eqn:E; [|now left].
      apply Nat.eqb_eq in E. right. exists DYNAMIC_CACHE, response.
      simpl. auto 10.
    + left. destruct (request_match cs req); simpl; trivial.
      destruct (accept req) as [a|]; simpl; trivial.
      destruct (includes a "text/html"); simpl; trivial.
      now destruct (caches_match cs (resolve origin "/")).
Qed.

Lemma puts_execute
    (origin : string) (route : Route) (net : NetResult) (cs : CacheStorage)
    (req : Request) (b k : string) (r : Response) :
  In (b, k, r) (puts (snd (execute origin route net cs req))) ->
  net = NetOk r /\ status r = 200 /\ k = url req /\ In b currentBuckets.
Proof.
  destruct (execute_trace origin route net cs req)
    as [H | [b0 [r0 [Hnet [H200 [Hb H]]]]]]; rewrite H; [intros []|].
  unfold cache_put_effect. destruct (put_accepts req r0); simpl; [|intros []].
  intros [Heq | []]. injection Heq as <- <- <-. auto.
Qed.

Lemma execute_fail_no_effect
    (origin : string) (route : Route) (cs : CacheStorage) (req : Request) :
  snd (execute origin route NetFail cs req) = [].
Proof.
  destruct (execute_trace origin route NetFail cs req)
    as [H | [b [r [Hnet _]]]]; [exact H | discriminate].
Qed.

Lemma execute_non_200_no_effect
    (origin : string) (route : Route) (cs : CacheStorage) (req : Request)
    (response : Response) :
  status response <> 200 ->
  snd (execute origin route (NetOk response) cs req) = [].
Proof.
  intros Hne.
  destruct (execute_trace origin route (NetOk response) cs req)
    as [H | [b [r [Hnet [H200 _]]]]]; [exact H|].
  injection Hnet as <-. contradiction.
Qed.

Lemma in_puts (trace : list Effect) (b k : string) (r : Response) :
  In (b, k, r) (puts trace) <-> In (EPut b k r) trace.
Proof.
  unfold puts. rewrite in_flat_map. split.
  - intros [e [He Hin]]. destruct e; simpl in Hin; try contradiction.
    destruct Hin as [H | []]. now injection H as <- <- <-.
  - intros H. exists (EPut b k r). split; [assumption | now left].
Qed.

Lemma all_200_put (cs : CacheStorage) (b k : string) (r : Response) :
  all_200 cs -> status r = 200 -> all_200 (caches_put cs b k r).
Proof.
  intros Hcs Hr name c key r' Hin Hentry.
  unfold caches_put in Hin. apply in_map_iff in Hin.
  destruct Hin as [[n0 c0] [Heq Hin0]]. simpl in Heq.
  assert (forall key' r'', In (key', r'') c0 -> status r'' = 200) as Hc0.
  { intros key' r'' H. unfold caches_open in Hin0.
    destruct (caches_has cs b).
    - exact (Hcs n0 c0 key' r'' Hin0 H).
    - apply in_app_or in Hin0. destruct Hin0 as [Hin0 | [Heq0 | []]].
      + exact (Hcs n0 c0 key' r'' Hin0 H).
      + injection Heq0 as <- <-. destruct H. }
  destruct (String.eqb n0 b).
  - injection Heq as <- <-. unfold cache_put in Hentry.
    apply in_app_or in Hentry. destruct Hentry as [Hf | [Hnew | []]].
    + apply filter_In in Hf. exact (Hc0 key r' (proj1 Hf)).
    + now injection Hnew as <- <-.
  - injection Heq as <- <-. exact (Hc0 key r' Hentry).
Qed.

Lemma all_200_delete (cs : CacheStorage) (name : string) :
  all_200 cs -> all_200 (caches_delete cs name).
Proof.
  intros Hcs n c key r Hin. apply filter_In in Hin.
  exact (Hcs n c key r (proj1 Hin)).
Qed.

Lemma all_200_open (cs : CacheStorage) (name : string) :
  all_200 cs -> all_200 (caches_open cs name).
Proof.
  intros Hcs n c key r Hin Hentry. unfold caches_open in Hin.
  destruct (caches_has cs name); [exact (Hcs n c key r Hin Hentry)|].
  apply in_app_or in Hin. destruct Hin as [Hin | [Heq | []]].
  - exact (Hcs n c key r Hin Hentry).
  - injection Heq as <- <-. destruct Hentry.
Qed.

Lemma all_200_settle (trace : list Effect) (cs : CacheStorage) :
  (forall b k r, In (EPut b k r) trace -> status r = 200) ->
  all_200 cs -> all_200 (settle cs trace).
Proof.
  unfold settle. revert cs.
  induction trace as [|e trace IH]; intros cs Hsafe Hcs; simpl; [assumption|].
  apply IH.
  - intros b k r H. apply (Hsafe b k r). now right.
  - destruct e as [b k r | b k r | n [|] | m | |]; simpl; trivial.
    + apply all_200_put; [assumption|]. apply (Hsafe b k r). now left.
    + now apply all_200_open.
    + now apply all_200_delete.
Qed.

Lemma message_handler_no_put
    (rejects : string -> bool) (cs : CacheStorage) (ev : MessageEvent)
    (b k : string) (r : Response) :
  ~ In (EPut b k r) (message_handler rejects cs ev).
Proof.
  unfold message_handler, clear_cache, post, delete_all. intros H.
  repeat (apply in_app_or in H; destruct H as [H | H]);
    repeat match type of H with
           | In _ (if ?c then _ else _) => destruct c
           | In _ (_ ++ _)%list => apply in_app_or in H; destruct H as [H | H]
           | In _ (map _ _) =>
               apply in_map_iff in H; destruct H as [? [? _]]; discriminate
           | In _ [] => destruct H
           | In _ [_] => destruct H as [H | []]; discriminate
           end.
Qed.

Lemma message_handler_no_rejected_put
    (rejects : string -> bool) (cs : CacheStorage) (ev : MessageEvent)
    (b k : string) (r : Response) :
  ~ In (EPutRejected b k r) (message_handler rejects cs ev).
Proof.
  unfold message_handler, clear_cache, post, delete_all. intros H.
  repeat (apply in_app_or in H; destruct H as [H | H]);
    repeat match type of H with
           | In _ (if ?c then _ else _) => destruct c
           | In _ (_ ++ _)%list => apply in_app_or in H; destruct H as [H | H]
           | In _ (map _ _) =>
               apply in_map_iff in H; destruct H as [? [? _]]; discriminate
           | In _ [] => destruct H
           | In _ [_] => destruct H as [H | []]; discriminate
           end.
Qed.

Lemma all_200_step (origin : string) (cs : CacheStorage) (e : Event) :
  all_200 cs -> all_200 (step origin cs e).
Proof.
  intros Hcs. unfold step. apply all_200_settle; [|assumption].
  intros b k r H. destruct e as [req net | ev rejects |]; simpl in H.
  - apply in_puts in H. unfold fetch_handler in H.
    now apply puts_execute in H.
  - now apply message_handler_no_put in H.
  - destruct H.
Qed.

(** C7: whatever the branch, the store and the request, every write the
    fetch handler issues carries the response of a network fetch that
    succeeded with status 200, under the request's key, into one of the two
    current buckets; a failed fetch and a non-200 response produce no write.
    Consequently, along every run of the activated worker a store whose
    entries all have status 200 keeps that property. *)
Theorem C7_writes_only_from_200 (origin : string) :
  (forall route net cs req b k r,
     In (b, k, r) (puts (snd (execute origin route net cs req))) ->
     net = NetOk r /\ status r = 200 /\ k = url req /\ In b currentBuckets) /\
  (forall net cs req b k r,
     In (b, k, r) (puts (snd (fetch_handler origin net cs req))) ->
     net = NetOk r /\ status r = 200) /\
  (forall route cs req, snd (execute origin route NetFail cs req) = []) /\
  (forall route cs req response,
     status response <> 200 ->
     snd (execute origin route (NetOk response) cs req) = []) /\
  (forall cs es, all_200 cs -> all_200 (run origin cs es)).
Proof.
  split; [exact (puts_execute origin)|].
  split.
  { intros net cs req b k r H. unfold fetch_handler in H.
    apply puts_execute in H. tauto. }
  split; [exact (execute_fail_no_effect origin)|].
  split; [exact (execute_non_200_no_effect origin)|].
  intros cs es. revert cs. unfold run.
  induction es as [|e es IH]; intros cs Hcs; simpl; [assumption|].
  apply IH. now apply all_200_step.
Qed.

Lemma C7_writes_only_from_200_witness :
  all_200 (run "https://zombie.example" []
             [EvFetch (mkRequest "https://zombie.example/app.js" (Some "*/*"))
                      (NetOk (mkResponse 200 "OK" [] "console.log(1)" Basic));
              EvFetch (mkRequest "https://zombie.example/missing.js" (Some "*/*"))
                      (NetOk (mkResponse 404 "Not Found" [] "" Basic))]).
Proof.
  apply (proj2 (proj2 (proj2 (proj2
           (C7_writes_only_from_200 "https://zombie.example"))))).
  intros name c key r H. destruct H.
Defined.

(** ** Bucket deletion *)

Lemma settle_app (cs : CacheStorage) (t1 t2 : list Effect) :
  settle cs (t1 ++ t2)%list = settle (settle cs t1) t2.
Proof. unfold settle. apply fold_left_app. Qed.

Lemma settle_delete_all
    (rejects : string -> bool) (names : list string) (cs : CacheStorage) :
  settle cs (delete_all rejects names) =
    filter (fun b => survives rejects names (fst b)) cs.
Proof.
  unfold settle, survives. revert cs.
  induction names as [|n names IH]; intros cs; simpl.
  - induction cs as [|b cs IHcs]; simpl; congruence.
  - rewrite IH. destruct (rejects n); simpl.
    + apply filter_ext. intros b. now rewrite andb_false_r.
    + unfold caches_delete.
      induction cs as [|b cs IHcs]; simpl; [reflexivity|].
      rewrite andb_true_r.
      destruct (String.eqb (fst b) n); simpl; [exact IHcs|].
      destruct (negb _); [now rewrite IHcs | exact IHcs].
Qed.

Lemma caches_keys_filter (f : string -> bool) (cs : CacheStorage) :
  caches_keys (filter (fun b => f (fst b)) cs) = filter f (caches_keys cs).
Proof.
  unfold caches_keys.
  induction cs as [|b cs IH]; simpl; [reflexivity|].
  destruct (f (fst b)); simpl; now rewrite IH.
Qed.

Lemma survives_self (rejects : string -> bool) (names : list string)
    (name : string) :
  In name names -> survives rejects names name = rejects name.
Proof.
  unfold survives. intros Hin.
  destruct (rejects name) eqn:Hr.
  - apply negb_true_iff, not_true_is_false. intros H.
    apply existsb_exists in H. destruct H as [n [_ Hn]].
    apply andb_true_iff in Hn. destruct Hn as [Heq Hrej].
    apply String.eqb_eq in Heq. subst n. now rewrite Hr in Hrej.
  - apply negb_false_iff, existsb_exists. exists name.
    now rewrite String.eqb_refl, Hr.
Qed.

Lemma survives_other (rejects : string -> bool) (names : list string)
    (name : string) :
  ~ In name names -> survives rejects names name = true.
Proof.
  unfold survives. intros Hnin.
  apply negb_true_iff, not_true_is_false. intros H.
  apply existsb_exists in H. destruct H as [n [Hin Hn]].
  apply andb_true_iff in Hn. destruct Hn as [Heq _].
  apply String.eqb_eq in Heq. now subst n.
Qed.

Lemma all_fulfilled_spec (rejects : string -> bool) (names : list string) :
  all_fulfilled rejects names = true <->
  forall n, In n names -> rejects n = false.
Proof.
  unfold all_fulfilled. rewrite negb_true_iff. split.
  - intros H n Hin. destruct (rejects n) eqn:E; trivial.
    assert (existsb rejects names = true) as Hc; [|congruence].
    apply existsb_exists. now exists n.
  - intros H. apply not_true_is_false. intros Hc.
    apply existsb_exists in Hc. destruct Hc as [n [Hin Hr]].
    rewrite (H n Hin) in Hr. discriminate.
Qed.

(** ** Pruning *)

Lemma is_current_spec (name : string) :
  is_current name = true <-> In name currentBuckets.
Proof.
  unfold is_current, currentBuckets. simpl.
  rewrite orb_true_iff, !String.eqb_eq. intuition congruence.
Qed.

Lemma prune_filter (names : list string) :
  prune names = filter (fun n => negb (is_current n)) names.
Proof.
  unfold prune, is_current. apply filter_ext. intros n.
  now rewrite negb_orb.
Qed.

Lemma in_prune (names : list string) (n : string) :
  In n (prune names) <-> In n names /\ ~ In n currentBuckets.
Proof.
  rewrite prune_filter, filter_In, <- is_current_spec, negb_true_iff.
  destruct (is_current n); intuition congruence.
Qed.

Lemma prune_nil_iff (names : list string) :
  prune names = [] <-> forall n, In n names -> In n currentBuckets.
Proof.
  split.
  - intros H n Hin. apply is_current_spec.
    destruct (is_current n) eqn:E; trivial.
    assert (In n (prune names)) as Hc.
    { rewrite prune_filter. apply filter_In. now rewrite E. }
    rewrite H in Hc. destruct Hc.
  - intros H. destruct (prune names) as [|n l] eqn:E; trivial.
    assert (In n (prune names)) as Hin by (rewrite E; now left).
    apply in_prune in Hin. destruct Hin as [Hin Hnc].
    destruct (Hnc (H n Hin)).
Qed.

Lemma filter_filter_pred {A : Type} (f g : A -> bool) (l : list A) :
  filter f (filter g l) = filter (fun x => g x && f x) l.
Proof.
  induction l as [|x l IH]; simpl; [reflexivity|].
  destruct (g x); simpl; [destruct (f x)|]; now rewrite IH.
Qed.

Lemma filter_ext_in_list {A : Type} (f g : A -> bool) (l : list A) :
  (forall x, In x l -> f x = g x) -> filter f l = filter g l.
Proof.
  induction l as [|x l IH]; intros H; simpl; [reflexivity|].
  rewrite (H x (or_introl eq_refl)), IH; [reflexivity|].
  intros y Hy. apply H. now right.
Qed.

Lemma settle_claim (cs : CacheStorage) (b : bool) :
  settle cs (if b then [EClaim] else []) = cs.
Proof. now destruct b. Qed.

Lemma settle_post (cs : CacheStorage) (ev : MessageEvent) (m : Reply) :
  settle cs (post ev m) = cs.
Proof. unfold post. now destruct (has_port ev). Qed.

(** The names the second activation would hand to [caches.delete] are the
    ones whose deletion rejected the first time. *)
Lemma prune_after_activate (rejects : string -> bool) (cs : CacheStorage) :
  prune (caches_keys (settle cs (activate rejects cs))) =
    filter rejects (prune (caches_keys cs)).
Proof.
  unfold activate. rewrite settle_app, settle_delete_all.
  rewrite settle_claim.
  rewrite caches_keys_filter, !prune_filter, !filter_filter_pred.
  apply filter_ext_in_list. intros n Hin.
  destruct (is_current n) eqn:E; simpl.
  - now rewrite andb_false_r.
  - rewrite andb_true_r. apply survives_self.
    apply filter_In. now rewrite E.
Qed.

Lemma filter_rejects_nil (rejects : string -> bool) (names : list string) :
  all_fulfilled rejects names = true -> filter rejects names = [].
Proof.
  rewrite all_fulfilled_spec.
  induction names as [|n names IH]; intros H; simpl; [reflexivity|].
  rewrite (H n (or_introl eq_refl)). apply IH.
  intros m Hm. apply H. now right.
Qed.

Lemma caches_keys_after_activate (rejects : string -> bool) (cs : CacheStorage) :
  caches_keys (settle cs (activate rejects cs)) =
    filter (fun n => is_current n || rejects n) (caches_keys cs).
Proof.
  unfold activate. rewrite settle_app, settle_delete_all, settle_claim.
  rewrite caches_keys_filter. apply filter_ext_in_list. intros n Hin.
  destruct (is_current n) eqn:E; simpl.
  - apply survives_other. rewrite in_prune, <- is_current_spec. tauto.
  - apply survives_self. rewrite prune_filter. apply filter_In.
    now rewrite E.
Qed.

(** C10: prune selects exactly the existing names outside the current
    bucket set; once those names are gone, prune selects nothing.  On the
    store: the activate listener leaves exactly the current buckets and the
    buckets whose deletion rejected, a second activation asks only for those
    again, and when every deletion of the first activation fulfilled the
    second one deletes nothing and leaves the store as it is. *)
Theorem C10_prune_idempotent
    (names : list string) (rejects rejects' : string -> bool)
    (cs : CacheStorage) :
  (forall n, In n (prune names) <-> In n names /\ ~ In n currentBuckets) /\
  prune (filter (fun n => negb (existsb (String.eqb n) (prune names))) names)
    = [] /\
  caches_keys (settle cs (activate rejects cs)) =
    filter (fun n => is_current n || rejects n) (caches_keys cs) /\
  prune (caches_keys (settle cs (activate rejects cs))) =
    filter rejects (prune (caches_keys cs)) /\
  (all_fulfilled rejects (prune (caches_keys cs)) = true ->
     let cs1 := settle cs (activate rejects cs) in
     prune (caches_keys cs1) = [] /\
     activate rejects' cs1 = [EClaim] /\
     settle cs1 (activate rejects' cs1) = cs1).
Proof.
  split; [intros n; apply in_prune|].
  split.
  { apply prune_nil_iff. intros n Hin. apply filter_In in Hin.
    destruct Hin as [Hin Hgone]. apply is_current_spec.
    destruct (is_current n) eqn:E; trivial.
    apply negb_true_iff in Hgone.
    assert (existsb (String.eqb n) (prune names) = true) as Hc; [|congruence].
    apply existsb_exists. exists n. rewrite String.eqb_refl. split; trivial.
    rewrite prune_filter. apply filter_In. now rewrite E. }
  split; [apply caches_keys_after_activate|].
  split; [apply prune_after_activate|].
  intros Hall. cbv zeta.
  assert (prune (caches_keys (settle cs (activate rejects cs))) = []) as Hnil.
  { rewrite prune_after_activate. now apply filter_rejects_nil. }
  split; [exact Hnil|].
  assert (activate rejects' (settle cs (activate rejects cs)) = [EClaim]) as Hact.
  { unfold activate at 1. now rewrite Hnil. }
  split; [exact Hact|]. now rewrite Hact.
Qed.

Lemma C10_prune_idempotent_witness :
  activate (fun _ => false)
    (settle [("zombie-survivor-v1", []); (STATIC_CACHE, [])]
            (activate (fun _ => false)
                      [("zombie-survivor-v1", []); (STATIC_CACHE, [])]))
  = [EClaim].
Proof.
  apply (proj2 (proj2 (proj2 (proj2
           (C10_prune_idempotent [] (fun _ => false) (fun _ => false)
              [("zombie-survivor-v1", []); (STATIC_CACHE, [])]))))
           eq_refl).
Defined.

(** ** The bucket set after activation *)

Lemma caches_keys_put (cs : CacheStorage) (b k : string) (r : Response)
    (n : string) :
  In n (caches_keys (caches_put cs b k r)) -> In n (caches_keys cs) \/ n = b.
Proof.
  unfold caches_put, caches_keys. rewrite map_map.
  rewrite (map_ext _ fst).
  2:{ intros [n0 c0]. simpl. now destruct (String.eqb n0 b). }
  unfold caches_open. destruct (caches_has cs b); [now left|].
  rewrite map_app, in_app_iff. simpl. intuition.
Qed.

Lemma caches_keys_open (cs : CacheStorage) (b n : string) :
  In n (caches_keys (caches_open cs b)) -> In n (caches_keys cs) \/ n = b.
Proof.
  unfold caches_open, caches_keys. destruct (caches_has cs b); [now left|].
  rewrite map_app, in_app_iff. simpl. intuition.
Qed.

(** A property of bucket names that the buckets written to have is kept
    by a trace. *)
Lemma settle_keys_within
    (P : string -> Prop) (trace : list Effect) (cs : CacheStorage) :
  (forall b k r, In (EPut b k r) trace -> P b) ->
  (forall b k r, In (EPutRejected b k r) trace -> P b) ->
  (forall name, In name (caches_keys cs) -> P name) ->
  forall name, In name (caches_keys (settle cs trace)) -> P name.
Proof.
  unfold settle. revert cs.
  induction trace as [|e trace IH]; intros cs Hput Hrej Hcs; simpl;
    [assumption|].
  apply IH.
  - intros b k r H. apply (Hput b k r). now right.
  - intros b k r H. apply (Hrej b k r). now right.
  - destruct e as [b k r | b k r | n [|] | m | |]; simpl; trivial.
    + intros name Hin. apply caches_keys_put in Hin.
      destruct Hin as [Hin | ->]; [now apply Hcs|].
      apply (Hput b k r). now left.
    + intros name Hin. apply caches_keys_open in Hin.
      destruct Hin as [Hin | ->]; [now apply Hcs|].
      apply (Hrej b k r). now left.
    + intros name Hin. apply Hcs. unfold caches_delete in Hin.
      rewrite (caches_keys_filter (fun x => negb (String.eqb x n))) in Hin.
      apply filter_In in Hin. tauto.
Qed.

Lemma step_keys_within
    (P : string -> Prop) (origin : string) (cs : CacheStorage) (e : Event) :
  (forall name, In name currentBuckets -> P name) ->
  (forall name, In name (caches_keys cs) -> P name) ->
  forall name, In name (caches_keys (step origin cs e)) -> P name.
Proof.
  intros Hcur Hcs. unfold step. apply settle_keys_within; [| |assumption].
  - intros b k r H. destruct e as [req net | ev rejects |]; simpl in H.
    + unfold fetch_handler in H.
      destruct (execute_trace origin (classify req) net cs req)
        as [Ht | [b0 [r0 [_ [_ [Hb Ht]]]]]]; rewrite Ht in H; [destruct H|].
      destruct H as [H | []]. unfold cache_put_effect in H.
      destruct (put_accepts req r0); [|discriminate].
      injection H as <- _ _. now apply Hcur.
    + now apply message_handler_no_put in H.
    + destruct H.
  - intros b k r H. destruct e as [req net | ev rejects |]; simpl in H.
    + unfold fetch_handler in H.
      destruct (execute_trace origin (classify req) net cs req)
        as [Ht | [b0 [r0 [_ [_ [Hb Ht]]]]]]; rewrite Ht in H; [destruct H|].
      destruct H as [H | []]. unfold cache_put_effect in H.
      destruct (put_accepts req r0); [discriminate|].
      injection H as <- _ _. now apply Hcur.
    + now apply message_handler_no_rejected_put in H.
    + destruct H.
Qed.

Lemma run_keys_within
    (P : string -> Prop) (origin : string) (es : list Event)
    (cs : CacheStorage) :
  (forall name, In name currentBuckets -> P name) ->
  (forall name, In name (caches_keys cs) -> P name) ->
  forall name, In name (caches_keys (run origin cs es)) -> P name.
Proof.
  intros Hcur. unfold run. revert cs.
  induction es as [|e es IH]; intros cs Hcs; simpl; [assumption|].
  apply IH. now apply step_keys_within.
Qed.

Lemma only_current_run (origin : string) (es : list Event) (cs : CacheStorage) :
  only_current cs -> only_current (run origin cs es).
Proof.
  intros Hcs. unfold only_current.
  apply (run_keys_within (fun name => In name currentBuckets)); auto.
Qed.

Lemma claimed_all_fulfilled (rejects : string -> bool) (cs : CacheStorage) :
  In EClaim (activate rejects cs) ->
  all_fulfilled rejects (prune (caches_keys cs)) = true.
Proof.
  unfold activate, delete_all. intros H. apply in_app_or in H.
  destruct H as [H | H].
  - apply in_map_iff in H. destruct H as [n [Hn _]]. discriminate.
  - destruct (all_fulfilled _ _); [reflexivity | destruct H].
Qed.

Lemma in_replies (trace : list Effect) (m : Reply) :
  In m (replies trace) <-> In (EPost m) trace.
Proof.
  unfold replies. rewrite in_flat_map. split.
  - intros [e [He Hin]]. destruct e; simpl in Hin; try contradiction.
    destruct Hin as [<- | []]. assumption.
  - intros H. exists (EPost m). split; [assumption | now left].
Qed.

Lemma cache_info_reply
    (rejects : string -> bool) (cs : CacheStorage) (ev : MessageEvent)
    (names : list string) :
  In (CACHE_INFO names) (replies (message_handler rejects cs ev)) ->
  names = caches_keys cs.
Proof.
  rewrite in_replies.
  unfold message_handler, clear_cache, post, delete_all. intros H.
  repeat (apply in_app_or in H; destruct H as [H | H]);
    repeat match type of H with
           | In _ (if ?c then _ else _) => destruct c
           | In _ (_ ++ _)%list => apply in_app_or in H; destruct H as [H | H]
           | In _ (map _ _) =>
               apply in_map_iff in H; destruct H as [? [? _]]; discriminate
           | In _ [] => destruct H
           | In _ [_] => destruct H as [H | []]
           end; try discriminate.
  now injection H as <-.
Qed.

Lemma all_fulfilled_claims (rejects : string -> bool) (cs : CacheStorage) :
  all_fulfilled rejects (prune (caches_keys cs)) = true ->
  In EClaim (activate rejects cs).
Proof.
  intros H. unfold activate. rewrite H. apply in_or_app. right. now left.
Qed.

(** C8 (as amended): in every state reachable after an activation whose
    deletions of stale buckets all fulfilled (the only case in which the
    listener goes on to claim the pages) the store holds no bucket outside
    the current set, and a GET_CACHE_INFO reply lists current bucket names
    only.  In general every bucket of a state reachable after activation is
    a current one or a stale one whose deletion rejected: such a bucket
    stays in the store, the pages are not claimed by the listener, and
    GET_CACHE_INFO reports it. *)
Theorem C8_buckets_after_activation
    (origin : string) (rejects : string -> bool) (cs0 : CacheStorage)
    (es : list Event) :
  let cs := run origin (settle cs0 (activate rejects cs0)) es in
  (In EClaim (activate rejects cs0) ->
     only_current cs /\
     forall rejects' ev names,
       In (CACHE_INFO names) (replies (message_handler rejects' cs ev)) ->
       forall name, In name names -> In name currentBuckets) /\
  (In EClaim (activate rejects cs0) <->
     all_fulfilled rejects (prune (caches_keys cs0)) = true) /\
  (forall name,
     In name (caches_keys cs) ->
     In name currentBuckets \/
     (In name (caches_keys cs0) /\ rejects name = true)) /\
  (forall rejects' ev names,
     In (CACHE_INFO names) (replies (message_handler rejects' cs ev)) ->
     forall name, In name names ->
       In name currentBuckets \/
       (In name (caches_keys cs0) /\ rejects name = true)) /\
  (forall name,
     In name (caches_keys cs0) -> ~ In name currentBuckets ->
     rejects name = true ->
     In name (caches_keys (settle cs0 (activate rejects cs0))) /\
     ~ In EClaim (activate rejects cs0)).
Proof.
  cbv zeta.
  assert (forall name,
            In name (caches_keys
                       (run origin (settle cs0 (activate rejects cs0)) es)) ->
            In name currentBuckets \/
            (In name (caches_keys cs0) /\ rejects name = true)) as Hgen.
  { apply (run_keys_within
             (fun name => In name currentBuckets \/
                          (In name (caches_keys cs0) /\ rejects name = true)));
      [auto|].
    intros name Hin. rewrite caches_keys_after_activate in Hin.
    apply filter_In in Hin. destruct Hin as [Hin Hkeep].
    apply orb_true_iff in Hkeep. destruct Hkeep as [Hc | Hr].
    - left. now apply is_current_spec.
    - right. now split. }
  split; [|split; [|split; [|split]]].
  - intros Hclaimed.
    assert (only_current
              (run origin (settle cs0 (activate rejects cs0)) es)) as Hinv.
    { apply only_current_run. unfold only_current. apply prune_nil_iff.
      rewrite prune_after_activate. apply filter_rejects_nil.
      now apply claimed_all_fulfilled. }
    split; [exact Hinv|].
    intros rejects' ev names Hreply name Hin.
    apply cache_info_reply in Hreply. subst names. now apply Hinv.
  - split; [apply claimed_all_fulfilled | apply all_fulfilled_claims].
  - exact Hgen.
  - intros rejects' ev names Hreply name Hin.
    apply cache_info_reply in Hreply. subst names. now apply Hgen.
  - intros name Hin Hstale Hrej. split.
    + rewrite caches_keys_after_activate. apply filter_In.
      split; [assumption|]. rewrite Hrej. apply orb_true_r.
    + intros Hclaimed. apply claimed_all_fulfilled in Hclaimed.
      rewrite all_fulfilled_spec in Hclaimed.
      rewrite (Hclaimed name) in Hrej; [discriminate|].
      apply in_prune. now split.
Qed.

Lemma C8_buckets_after_activation_witness :
  only_current
    (run "https://zombie.example"
       (settle [("zombie-survivor-v1", []); (STATIC_CACHE, [])]
               (activate (fun _ => false)
                         [("zombie-survivor-v1", []); (STATIC_CACHE, [])]))
       [EvFetch (mkRequest "https://firestore.googleapis.com/v1/scores"
                           (Some "application/json"))
                (NetOk (mkResponse 200 "OK" [] "{}" Cors));
        EvMessage (mkMessage (Some "GET_CACHE_INFO") true) (fun _ => false)]).
Proof.
  refine (proj1 (proj1 (C8_buckets_after_activation "https://zombie.example"
           (fun _ => false)
           [("zombie-survivor-v1", []); (STATIC_CACHE, [])] _) _)).
  simpl. right. left. reflexivity.
Defined.

(** C8 as stated fails: when the deletion of the stale bucket rejects, the
    worker is activated all the same, the stale bucket is still in the store
    and GET_CACHE_INFO reports it. *)
Lemma C8_rejected_deletion_leaves_stale_bucket :
  let cs0 := [("zombie-survivor-v1", []); (STATIC_CACHE, [])] in
  let rejects := String.eqb "zombie-survivor-v1" in
  let cs := run "https://zombie.example" (settle cs0 (activate rejects cs0)) [] in
  activate rejects cs0 = [EDelete "zombie-survivor-v1" false] /\
  cs = cs0 /\
  ~ only_current cs /\
  message_handler rejects cs (mkMessage (Some "GET_CACHE_INFO") true)
    = [EPost (CACHE_INFO ["zombie-survivor-v1"; STATIC_CACHE])].
Proof.
  cbv zeta. split; [reflexivity|]. split; [reflexivity|].
  split; [|reflexivity].
  intros H. specialize (H "zombie-survivor-v1" (or_introl eq_refl)).
  simpl in H. destruct H as [H | [H | []]]; discriminate H.
Qed.

(** ** Clearing the store *)

Lemma type_is_eq (ev : MessageEvent) (t : string) :
  type_is ev t = true <-> data_type ev = Some t.
Proof.
  unfold type_is. destruct (data_type ev) as [t'|].
  - rewrite String.eqb_eq. split; congruence.
  - split; discriminate.
Qed.

Lemma message_handler_clear
    (rejects : string -> bool) (cs : CacheStorage) (ev : MessageEvent) :
  type_is ev "CLEAR_CACHE" = true ->
  message_handler rejects cs ev = clear_cache rejects cs ev.
Proof.
  intros H. unfold message_handler. rewrite H.
  apply type_is_eq in H. unfold type_is. rewrite H. reflexivity.
Qed.

Lemma message_handler_info
    (rejects : string -> bool) (cs : CacheStorage) (ev : MessageEvent) :
  type_is ev "GET_CACHE_INFO" = true ->
  message_handler rejects cs ev = post ev (CACHE_INFO (caches_keys cs)).
Proof.
  intros H. unfold message_handler. rewrite H.
  apply type_is_eq in H. unfold type_is. rewrite H. simpl.
  apply app_nil_r.
Qed.

Lemma settle_reply_tail
    (cs : CacheStorage) (b : bool) (ev : MessageEvent) (m : Reply) :
  settle cs (if b then post ev m else []) = cs.
Proof. destruct b; [apply settle_post | reflexivity]. Qed.

Lemma caches_keys_after_clear
    (rejects : string -> bool) (cs : CacheStorage) (ev : MessageEvent) :
  caches_keys (settle cs (clear_cache rejects cs ev)) =
    filter rejects (caches_keys cs).
Proof.
  unfold clear_cache.
  rewrite settle_app, settle_delete_all, settle_reply_tail.
  rewrite caches_keys_filter. apply filter_ext_in_list.
  intros n Hin. now apply survives_self.
Qed.

Lemma replies_delete_all (rejects : string -> bool) (names : list string) :
  replies (delete_all rejects names) = [].
Proof. induction names as [|n names IH]; simpl; trivial. Qed.

(** C9 (as amended): handling CLEAR_CACHE starts a deletion for every
    bucket of the store, current ones included, and the buckets left
    afterwards are exactly those whose deletion rejected.  When every
    deletion fulfils, the store is empty, the CACHE_CLEARED reply is the last
    effect, after all deletions, and a GET_CACHE_INFO handled next reports an
    empty list.  When some deletion rejects, the other deletions still take
    place but no reply is posted. *)
Theorem C9_clear_cache
    (rejects : string -> bool) (cs : CacheStorage) (ev : MessageEvent)
    (Hclear : type_is ev "CLEAR_CACHE" = true) :
  let trace := message_handler rejects cs ev in
  (exists tail,
     trace = (delete_all rejects (caches_keys cs) ++ tail)%list /\
     tail = if all_fulfilled rejects (caches_keys cs)
            then post ev CACHE_CLEARED else []) /\
  (forall name, In name (caches_keys cs) ->
     In (EDelete name (negb (rejects name))) trace) /\
  caches_keys (settle cs trace) = filter rejects (caches_keys cs) /\
  (all_fulfilled rejects (caches_keys cs) = true ->
     settle cs trace = [] /\
     (has_port ev = true ->
        trace = (delete_all rejects (caches_keys cs)
                 ++ [EPost CACHE_CLEARED])%list) /\
     (forall rejects' ev',
        type_is ev' "GET_CACHE_INFO" = true -> has_port ev' = true ->
        message_handler rejects' (settle cs trace) ev'
          = [EPost (CACHE_INFO [])])) /\
  (all_fulfilled rejects (caches_keys cs) = false -> replies trace = []).
Proof.
  cbv zeta. rewrite (message_handler_clear rejects cs ev Hclear).
  split; [eexists; split; reflexivity|].
  split.
  { intros name Hin. unfold clear_cache. apply in_or_app. left.
    unfold delete_all. apply in_map_iff. now exists name. }
  split; [apply caches_keys_after_clear|].
  split.
  - intros Hall.
    assert (settle cs (clear_cache rejects cs ev) = []) as Hempty.
    { pose proof (caches_keys_after_clear rejects cs ev) as Hk.
      rewrite (filter_rejects_nil _ _ Hall) in Hk.
      destruct (settle cs (clear_cache rejects cs ev)); [reflexivity|].
      discriminate Hk. }
    split; [exact Hempty|]. split.
    + intros Hport. unfold clear_cache, post. now rewrite Hall, Hport.
    + intros rejects' ev' Hinfo Hport. rewrite Hempty.
      rewrite (message_handler_info rejects' [] ev' Hinfo).
      unfold post. now rewrite Hport.
  - intros Hsome. unfold clear_cache. rewrite Hsome, app_nil_r.
    apply replies_delete_all.
Qed.

Lemma C9_clear_cache_witness :
  settle [(STATIC_CACHE, []); (DYNAMIC_CACHE, [])]
         (message_handler (fun _ => false)
            [(STATIC_CACHE, []); (DYNAMIC_CACHE, [])]
            (mkMessage (Some "CLEAR_CACHE") true))
  = [].
Proof.
  apply (proj2 (proj2 (proj2
           (C9_clear_cache (fun _ => false)
              [(STATIC_CACHE, []); (DYNAMIC_CACHE, [])]
              (mkMessage (Some "CLEAR_CACHE") true) eq_refl)))).
  reflexivity.
Defined.

(** C9 as stated fails: when the deletion of one bucket rejects, the other
    bucket is still deleted, but no CACHE_CLEARED reply is posted and the
    GET_CACHE_INFO handled next still reports the bucket that was left. *)
Lemma C9_rejected_deletion_suppresses_reply :
  let cs := [(STATIC_CACHE, []); (DYNAMIC_CACHE, [])] in
  let rejects := String.eqb DYNAMIC_CACHE in
  let clear := mkMessage (Some "CLEAR_CACHE") true in
  let info := mkMessage (Some "GET_CACHE_INFO") true in
  let trace := message_handler rejects cs clear in
  trace = [EDelete STATIC_CACHE true; EDelete DYNAMIC_CACHE false] /\
  replies trace = [] /\
  message_handler rejects (settle cs trace) info
    = [EPost (CACHE_INFO [DYNAMIC_CACHE])].
Proof. cbv zeta. repeat split. Qed.

(** * Further properties of the code *)

(** ** Lookup after a write *)

Lemma cache_match_put_other (c : Cache) (k k' : string) (r : Response) :
  k <> k' -> cache_match (cache_put c k r) k' = cache_match c k'.
Proof.
  intros Hne. unfold cache_put.
  induction c as [|[k0 r0] c IH]; simpl.
  - destruct (String.eqb k k') eqn:E; [|reflexivity].
    apply String.eqb_eq in E. contradiction.
  - destruct (String.eqb k0 k) eqn:E0; simpl.
    + apply String.eqb_eq in E0. subst k0.
      destruct (String.eqb k k') eqn:E; [|exact IH].
      apply String.eqb_eq in E. contradiction.
    + destruct (String.eqb k0 k'); [reflexivity | exact IH].
Qed.

Lemma caches_match_app (l1 l2 : CacheStorage) (key : string) :
  caches_match (l1 ++ l2)%list key =
    match caches_match l1 key with
    | Some r => Some r
    | None => caches_match l2 key
    end.
Proof.
  induction l1 as [|[n c] l1 IH]; simpl; [reflexivity|].
  destruct (cache_match c key); [reflexivity | exact IH].
Qed.

Lemma caches_match_open (cs : CacheStorage) (name key : string) :
  caches_match (caches_open cs name) key = caches_match cs key.
Proof.
  unfold caches_open. destruct (caches_has cs name); [reflexivity|].
  rewrite caches_match_app. simpl. now destruct (caches_match cs key).
Qed.

Lemma caches_match_put_other
    (cs : CacheStorage) (b k k' : string) (r : Response) :
  k <> k' -> caches_match (caches_put cs b k r) k' = caches_match cs k'.
Proof.
  intros Hne. unfold caches_put.
  rewrite <- (caches_match_open cs b k').
  induction (caches_open cs b) as [|[n c] l IH]; simpl; [reflexivity|].
  destruct (String.eqb n b); simpl.
  - rewrite cache_match_put_other by assumption.
    destruct (cache_match c k'); [reflexivity | exact IH].
  - destruct (cache_match c k'); [reflexivity | exact IH].
Qed.

Lemma caches_match_filter_none
    (f : string * Cache -> bool) (cs : CacheStorage) (key : string) :
  caches_match cs key = None -> caches_match (filter f cs) key = None.
Proof.
  induction cs as [|[n c] cs IH]; simpl; [reflexivity|].
  destruct (cache_match c key) eqn:E; [discriminate|].
  intros H. destruct (f (n, c)); simpl; [rewrite E|]; now apply IH.
Qed.

Lemma caches_delete_open (cs : CacheStorage) (name : string) :
  caches_delete (caches_open cs name) name = caches_delete cs name.
Proof.
  unfold caches_open, caches_delete.
  destruct (caches_has cs name); [reflexivity|].
  rewrite filter_app. simpl. rewrite String.eqb_refl. simpl.
  apply app_nil_r.
Qed.

Lemma caches_delete_put (cs : CacheStorage) (b k : string) (r : Response) :
  caches_delete (caches_put cs b k r) b = caches_delete cs b.
Proof.
  unfold caches_put. rewrite <- (caches_delete_open cs b).
  unfold caches_delete.
  induction (caches_open cs b) as [|[n c] l IH]; simpl; [reflexivity|].
  destruct (String.eqb n b) eqn:E; simpl; rewrite E; simpl; now rewrite IH.
Qed.

(** When no other bucket holds the key, a lookup after a write into bucket
    [b] finds what was written. *)
Lemma caches_match_put_fresh
    (cs : CacheStorage) (b k : string) (r : Response) :
  caches_match (caches_delete cs b) k = None ->
  caches_match (caches_put cs b k r) k = Some r.
Proof.
  rewrite <- (caches_delete_open cs b).
  unfold caches_put, caches_delete.
  destruct (caches_get_open cs b) as [c0 H0]. revert H0.
  induction (caches_open cs b) as [|[n c] l IH]; simpl; [discriminate|].
  destruct (String.eqb n b) eqn:E; simpl.
  - intros _ _. now rewrite cache_match_put.
  - intros Hget Hnone. destruct (cache_match c k); [discriminate|].
    now apply IH.
Qed.

Lemma caches_get_match
    (cs : CacheStorage) (name key : string) (c : Cache) (r : Response) :
  caches_get cs name = Some c -> cache_match c key = Some r ->
  exists r', caches_match cs key = Some r'.
Proof.
  induction cs as [|[n c0] cs IH]; simpl; [discriminate|].
  intros Hget Hm. destruct (cache_match c0 key) as [r0|] eqn:E0.
  - now exists r0.
  - destruct (String.eqb n name).
    + injection Hget as ->. congruence.
    + now apply IH.
Qed.

Lemma caches_match_put_some
    (cs : CacheStorage) (b k : string) (r : Response) :
  exists r', caches_match (caches_put cs b k r) k = Some r'.
Proof.
  destruct (caches_get_put cs b k r) as [c [Hget Hm]].
  exact (caches_get_match _ _ _ _ _ Hget Hm).
Qed.

(** An entry in a bucket that comes before bucket [b] wins over what is
    written into [b]. *)
Lemma caches_match_put_shadowed
    (before after : CacheStorage) (b k : string) (r old : Response) :
  caches_has before b = false ->
  caches_match before k = Some old ->
  caches_match (caches_put (before ++ after)%list b k r) k = Some old.
Proof.
  intros Hnb Hold. unfold caches_put.
  assert (exists rest, caches_open (before ++ after)%list b
                       = (before ++ rest)%list) as [rest ->].
  { unfold caches_open. destruct (caches_has (before ++ after)%list b).
    - now exists after.
    - exists (after ++ [(b, [])])%list. symmetry. apply app_assoc. }
  rewrite map_app, caches_match_app.
  replace (map _ before) with before; [now rewrite Hold|].
  clear Hold. unfold caches_has, caches_keys in Hnb.
  induction before as [|[n c] l IH]; simpl; [reflexivity|].
  simpl in Hnb. apply orb_false_iff in Hnb. destruct Hnb as [Hn Hl].
  rewrite String.eqb_sym in Hn. rewrite Hn. f_equal. now apply IH.
Qed.

(** ** Fetch events and the store *)

Lemma execute_fail_cached
    (origin : string) (route : Route) (cs : CacheStorage) (req : Request)
    (cached : Response) :
  decision route = decide_network_first ->
  request_match cs req = Some cached ->
  execute origin route NetFail cs req = (Resolved (Some cached), []).
Proof.
  intros Hr Hc. destruct route; try discriminate; simpl; now rewrite Hc.
Qed.

Lemma execute_trace_shape
    (origin : string) (route : Route) (net : NetResult) (cs : CacheStorage)
    (req : Request) :
  snd (execute origin route net cs req) = [] \/
  exists b r,
    snd (execute origin route net cs req) = [EPut b (url req) r] \/
    snd (execute origin route net cs req) = [EPutRejected b (url req) r].
Proof.
  destruct (execute_trace origin route net cs req)
    as [H | [b [r [_ [_ [_ H]]]]]]; [now left|].
  right. exists b, r. rewrite H. unfold cache_put_effect.
  destruct (put_accepts req r); [now left | now right].
Qed.

Lemma caches_keys_put_open (cs : CacheStorage) (b k : string) (r : Response) :
  caches_keys (caches_put cs b k r) = caches_keys (caches_open cs b).
Proof.
  unfold caches_put, caches_keys. rewrite map_map.
  apply map_ext. intros [n0 c0]. simpl. now destruct (String.eqb n0 b).
Qed.

(** X1: a GET request with an http(s) URL that the current handler treats
    cache-first, that misses the store and is answered 200 with a response
    that has no [Vary] header is written to the static bucket; from then on
    every GET request for the same URL is answered with that stored response
    and no further write, whatever the network would say.  More generally a
    stored entry is never refreshed: a hit returns it without consulting the
    network result. *)
Theorem X1_cache_first_round_trip
    (origin : string) (cs : CacheStorage) (req req' : Request)
    (response : Response) (net' : NetResult)
    (Hsock : is_socket (url req) = false)
    (Hapi : is_api (url req) = false)
    (Hget : is_get req = true)
    (Hhttp : is_http (url req) = true)
    (Hmiss : request_match cs req = None)
    (H200 : status response = 200)
    (Hvary : vary response = None)
    (Hget' : is_get req' = true)
    (Hsame : url req' = url req) :
  fetch_handler origin (NetOk response) cs req
    = (Resolved (Some response), [EPut STATIC_CACHE (url req) response]) /\
  fetch_handler origin net' (step origin cs (EvFetch req (NetOk response))) req'
    = (Resolved (Some response), []) /\
  (forall cs2 cached net,
     request_match cs2 req = Some cached ->
     fetch_handler origin net cs2 req = (Resolved (Some cached), [])).
Proof.
  assert (forall n s, fetch_handler origin n s req = cache_first n s req) as Hcf.
  { intros n s. unfold fetch_handler. now rewrite classify_cases, Hsock, Hapi. }
  assert (put_accepts req response = true) as Hacc.
  { unfold put_accepts, vary_star. now rewrite Hget, Hhttp, Hvary. }
  assert (fetch_handler origin (NetOk response) cs req
          = (Resolved (Some response), [EPut STATIC_CACHE (url req) response]))
    as Hfirst.
  { rewrite Hcf. unfold cache_first, clone. rewrite Hmiss, H200. simpl.
    now rewrite (cache_put_effect_accepted _ _ _ Hacc). }
  split; [exact Hfirst|]. split.
  - unfold step. simpl. rewrite Hfirst. simpl.
    unfold fetch_handler. rewrite classify_cases, Hsame, Hsock, Hapi. simpl.
    unfold cache_first. rewrite (request_match_get _ _ Hget'), Hsame.
    rewrite caches_match_put_fresh; [reflexivity|].
    apply caches_match_filter_none.
    now rewrite (request_match_get _ _ Hget) in Hmiss.
  - intros cs2 cached net Hhit. rewrite Hcf. unfold cache_first.
    now rewrite Hhit.
Qed.

Lemma X1_cache_first_round_trip_witness :
  fetch_handler "https://zombie.example" NetFail
    (step "https://zombie.example" []
       (EvFetch (mkRequest "https://zombie.example/app.js" (Some "*/*"))
                (NetOk (mkResponse 200 "OK" [] "console.log(1)" Basic))))
    (mkRequest "https://zombie.example/app.js" (Some "text/html"))
  = (Resolved (Some (mkResponse 200 "OK" [] "console.log(1)" Basic)), []).
Proof.
  exact (proj1 (proj2
    (X1_cache_first_round_trip "https://zombie.example" []
       (mkRequest "https://zombie.example/app.js" (Some "*/*"))
       (mkRequest "https://zombie.example/app.js" (Some "text/html"))
       (mkResponse 200 "OK" [] "console.log(1)" Basic) NetFail
       eq_refl eq_refl eq_refl eq_refl eq_refl eq_refl eq_refl eq_refl
       eq_refl))).
Defined.

(** X2: on a network-first route, for a GET request with an http(s) URL
    whose URL no bucket other than the dynamic one holds, the offline
    fallback returns the response of the last fetch that succeeded with
    status 200 (the responses having no [Vary] header): a second success
    overwrites the entry of the first.  For a request that is not a GET the
    fallback finds nothing, whatever was fetched before. *)
Theorem X2_network_first_fallback_is_last_success
    (origin : string) (route : Route) (cs : CacheStorage) (req : Request)
    (r1 r2 : Response)
    (Hroute : decision route = decide_network_first)
    (Hhttp : is_http (url req) = true)
    (H1 : status r1 = 200) (H2 : status r2 = 200)
    (Hvary1 : vary r1 = None) (Hvary2 : vary r2 = None)
    (Hother : caches_match (caches_delete cs DYNAMIC_CACHE) (url req) = None) :
  let cs1 := settle cs (snd (execute origin route (NetOk r1) cs req)) in
  let cs2 := settle cs1 (snd (execute origin route (NetOk r2) cs1 req)) in
  (is_get req = true ->
     execute origin route NetFail cs1 req = (Resolved (Some r1), []) /\
     execute origin route NetFail cs2 req = (Resolved (Some r2), [])) /\
  (is_get req = false ->
     route = ApiNetworkFirst ->
     execute origin route NetFail cs2 req = (Resolved None, [])).
Proof.
  cbv zeta.
  rewrite !(execute_network_first_ok origin route _ req _ Hroute).
  rewrite !store_dynamic_200 by assumption. simpl. split.
  - intros Hget.
    assert (forall r, vary r = None -> put_accepts req r = true) as Hacc.
    { intros r Hv. unfold put_accepts, vary_star. now rewrite Hget, Hhttp, Hv. }
    rewrite !cache_put_effect_accepted by auto. simpl.
    split; apply execute_fail_cached; trivial;
      rewrite (request_match_get _ _ Hget);
      apply caches_match_put_fresh; rewrite ?caches_delete_put; assumption.
  - intros Hget ->. simpl. unfold request_match. now rewrite Hget.
Qed.

Lemma X2_network_first_fallback_is_last_success_witness :
  let req := mkRequest "https://firestore.googleapis.com/v1/scores"
                       (Some "application/json") in
  let r1 := mkResponse 200 "OK" [] "{1}" Cors in
  let r2 := mkResponse 200 "OK" [] "{2}" Cors in
  let cs1 := settle [] (snd (execute "https://zombie.example" ApiNetworkFirst
                               (NetOk r1) [] req)) in
  let cs2 := settle cs1 (snd (execute "https://zombie.example" ApiNetworkFirst
                                (NetOk r2) cs1 req)) in
  execute "https://zombie.example" ApiNetworkFirst NetFail cs2 req
  = (Resolved (Some r2), []).
Proof.
  exact (proj2 (proj1 (X2_network_first_fallback_is_last_success
                  "https://zombie.example" ApiNetworkFirst []
                  (mkRequest "https://firestore.googleapis.com/v1/scores"
                             (Some "application/json"))
                  (mkResponse 200 "OK" [] "{1}" Cors)
                  (mkResponse 200 "OK" [] "{2}" Cors)
                  eq_refl eq_refl eq_refl eq_refl eq_refl eq_refl eq_refl)
                eq_refl)).
Defined.

Lemma caches_match_open_shadowed
    (before after : CacheStorage) (b k : string) (old : Response) :
  caches_match before k = Some old ->
  caches_match (caches_open (before ++ after)%list b) k = Some old.
Proof.
  intros Hold. rewrite caches_match_open, caches_match_app. now rewrite Hold.
Qed.

(** X3: the offline fallback of a network-first route looks through all
    buckets in creation order, so an entry that matches the request in a
    bucket created before the dynamic bucket is returned even after a
    fresher 200 response has been fetched and, when the cache accepts the
    write, stored in the dynamic bucket. *)
Theorem X3_earlier_bucket_shadows_dynamic
    (origin : string) (route : Route) (before after : CacheStorage)
    (req : Request) (fresh old : Response)
    (Hroute : decision route = decide_network_first)
    (H200 : status fresh = 200)
    (Hbefore : caches_has before DYNAMIC_CACHE = false)
    (Hold : request_match before req = Some old) :
  let cs := (before ++ after)%list in
  let cs' := settle cs (snd (execute origin route (NetOk fresh) cs req)) in
  (put_accepts req fresh = true ->
     exists c, caches_get cs' DYNAMIC_CACHE = Some c /\
               cache_match c (url req) = Some fresh) /\
  execute origin route NetFail cs' req = (Resolved (Some old), []).
Proof.
  cbv zeta.
  rewrite (execute_network_first_ok origin route _ req _ Hroute).
  rewrite store_dynamic_200 by assumption. simpl.
  destruct (request_match_some _ _ _ Hold) as [Hget Holdk].
  split.
  - intros Hacc. rewrite (cache_put_effect_accepted _ _ _ Hacc). simpl.
    apply caches_get_put.
  - apply execute_fail_cached; trivial.
    rewrite (request_match_get _ _ Hget).
    unfold cache_put_effect. destruct (put_accepts req fresh); simpl.
    + now apply caches_match_put_shadowed.
    + now apply caches_match_open_shadowed.
Qed.

Lemma X3_earlier_bucket_shadows_dynamic_witness :
  let sdk := "https://www.gstatic.com/firebasejs/10.8.0/firebase-app.js" in
  let old := mkResponse 200 "OK" [] "old sdk" Cors in
  let fresh := mkResponse 200 "OK" [] "new sdk" Cors in
  let cs := ([(STATIC_CACHE, [(sdk, old)])] ++ [])%list in
  let req := mkRequest sdk (Some "*/*") in
  execute "https://zombie.example" ApiNetworkFirst NetFail
    (settle cs (snd (execute "https://zombie.example" ApiNetworkFirst
                       (NetOk fresh) cs req))) req
  = (Resolved (Some old), []).
Proof.
  exact (proj2 (X3_earlier_bucket_shadows_dynamic
                  "https://zombie.example" ApiNetworkFirst
                  [(STATIC_CACHE,
                    [("https://www.gstatic.com/firebasejs/10.8.0/firebase-app.js",
                      mkResponse 200 "OK" [] "old sdk" Cors)])] []
                  (mkRequest "https://www.gstatic.com/firebasejs/10.8.0/firebase-app.js"
                             (Some "*/*"))
                  (mkResponse 200 "OK" [] "new sdk" Cors)
                  (mkResponse 200 "OK" [] "old sdk" Cors)
                  eq_refl eq_refl eq_refl eq_refl)).
Defined.

(** X4: a fetch event starts at most one write, under the request's own
    URL, and nothing else; it removes no bucket and leaves what the store
    answers for any other URL unchanged. *)
Theorem X4_fetch_event_frame
    (origin : string) (cs : CacheStorage) (req : Request) (net : NetResult)
    (key : string)
    (Hother : url req <> key) :
  (snd (fetch_handler origin net cs req) = [] \/
   exists b r,
     snd (fetch_handler origin net cs req) = [EPut b (url req) r] \/
     snd (fetch_handler origin net cs req) = [EPutRejected b (url req) r]) /\
  caches_match (step origin cs (EvFetch req net)) key = caches_match cs key /\
  (forall name, In name (caches_keys cs) ->
     In name (caches_keys (step origin cs (EvFetch req net)))).
Proof.
  assert (forall b name, In name (caches_keys cs) ->
            In name (caches_keys (caches_open cs b))) as Hopen.
  { intros b name Hin. unfold caches_open.
    destruct (caches_has cs b); [assumption|].
    unfold caches_keys. rewrite map_app. apply in_or_app. now left. }
  unfold step, trace_of, fetch_handler.
  destruct (execute_trace_shape origin (classify req) net cs req)
    as [H | [b [r [H | H]]]]; rewrite H; simpl.
  - split; [now left|]. split; [reflexivity | trivial].
  - split; [right; eauto|]. split.
    + now apply caches_match_put_other.
    + intros name Hin. rewrite caches_keys_put_open. now apply Hopen.
  - split; [right; eauto|]. split.
    + apply caches_match_open.
    + intros name Hin. now apply Hopen.
Qed.

Lemma X4_fetch_event_frame_witness :
  caches_match
    (step "https://zombie.example"
       [(STATIC_CACHE, [("https://zombie.example/", offline_page)])]
       (EvFetch (mkRequest "https://zombie.example/app.js" (Some "*/*"))
                (NetOk (mkResponse 200 "OK" [] "console.log(1)" Basic))))
    "https://zombie.example/"
  = caches_match [(STATIC_CACHE, [("https://zombie.example/", offline_page)])]
                 "https://zombie.example/".
Proof.
  refine (proj1 (proj2
    (X4_fetch_event_frame "https://zombie.example"
       [(STATIC_CACHE, [("https://zombie.example/", offline_page)])]
       (mkRequest "https://zombie.example/app.js" (Some "*/*"))
       (NetOk (mkResponse 200 "OK" [] "console.log(1)" Basic))
       "https://zombie.example/" _))).
  discriminate.
Defined.

(** ** Installation *)

Lemma fetch_all_keys
    (fetch_of : string -> NetResult) (urls : list string)
    (batch : list (string * Response)) :
  fetch_all fetch_of urls = Some batch ->
  map fst batch = urls /\
  forall k r, In (k, r) batch -> fetch_of k = NetOk r.
Proof.
  revert batch. induction urls as [|u urls IH]; intros batch; simpl.
  - intros H. injection H as <-. split; [reflexivity | intros k r []].
  - destruct (fetch_of u) as [r|] eqn:Hu; [|discriminate].
    destruct (addAll_accepts r); [|discriminate].
    destruct (fetch_all fetch_of urls) as [rest|]; [|discriminate].
    intros H. injection H as <-. destruct (IH rest eq_refl) as [Hk Hv].
    split; [simpl; now rewrite Hk|].
    intros k r' [Heq | Hin]; [|now apply Hv].
    injection Heq as <- <-. exact Hu.
Qed.

Lemma fetch_all_some_iff
    (fetch_of : string -> NetResult) (urls : list string) :
  (exists batch, fetch_all fetch_of urls = Some batch) <->
  (forall u, In u urls ->
     exists r, fetch_of u = NetOk r /\ addAll_accepts r = true).
Proof.
  induction urls as [|u urls IH]; simpl.
  - split; [intros _ u [] | intros _; now exists []].
  - destruct (fetch_of u) as [r|] eqn:Hu.
    + destruct (addAll_accepts r) eqn:Ha.
      * destruct (fetch_all fetch_of urls) as [rest|].
        -- split; [|intros _; eauto].
           intros _ u' [<- | Hin]; [eauto|].
           apply (proj1 IH); eauto.
        -- split; [intros [b Hb]; discriminate|].
           intros H. destruct (proj2 IH) as [b Hb]; [|discriminate].
           intros u' Hin. apply H. now right.
      * split; [intros [b Hb]; discriminate|].
        intros H. destruct (H u (or_introl eq_refl)) as [r' [Hr' Ha']].
        congruence.
    + split; [intros [b Hb]; discriminate|].
      intros H. destruct (H u (or_introl eq_refl)) as [r' [Hr' _]].
      congruence.
Qed.

Lemma caches_get_put_exact
    (cs : CacheStorage) (name key : string) (r : Response) (c : Cache) :
  caches_get cs name = Some c ->
  caches_get (caches_put cs name key r) name = Some (cache_put c key r).
Proof.
  intros Hget. unfold caches_put, caches_open.
  replace (caches_has cs name) with true
    by (symmetry; apply caches_has_get; eauto).
  revert Hget. induction cs as [|[n c0] cs IH]; simpl; [discriminate|].
  destruct (String.eqb n name) eqn:E; simpl; rewrite E.
  - intros H. now injection H as ->.
  - exact IH.
Qed.

Lemma put_all_keeps
    (name key : string) (r : Response) (batch : list (string * Response))
    (cs : CacheStorage) (c : Cache) :
  caches_get cs name = Some c -> cache_match c key = Some r ->
  (forall r', In (key, r') batch -> r' = r) ->
  exists c', caches_get (put_all cs name batch) name = Some c' /\
             cache_match c' key = Some r.
Proof.
  unfold put_all. revert cs c.
  induction batch as [|[k v] batch IH]; intros cs c Hget Hm Hcons; simpl.
  - eauto.
  - apply (IH _ (cache_put c k v)).
    + now apply caches_get_put_exact.
    + destruct (String.eqb k key) eqn:E.
      * apply String.eqb_eq in E. subst k.
        rewrite cache_match_put. f_equal. apply Hcons. now left.
      * apply String.eqb_neq in E. now rewrite cache_match_put_other.
    + intros r' Hin. apply Hcons. now right.
Qed.

Lemma put_all_lookup
    (fetch_of : string -> NetResult) (name key : string) (r : Response)
    (batch : list (string * Response)) (cs : CacheStorage) :
  (forall k v, In (k, v) batch -> fetch_of k = NetOk v) ->
  In (key, r) batch ->
  exists c, caches_get (put_all cs name batch) name = Some c /\
            cache_match c key = Some r.
Proof.
  revert cs. induction batch as [|[k v] batch IH]; intros cs Hf Hin;
    [destruct Hin|].
  assert (forall r', In (key, r') ((k, v) :: batch) -> r' = r) as Hcons.
  { intros r' H'. apply Hf in H'. apply Hf in Hin. congruence. }
  destruct (caches_get_put cs name k v) as [c [Hget Hm]].
  destruct (String.eqb k key) eqn:E.
  - apply String.eqb_eq in E. subst k.
    assert (v = r) as -> by (apply Hcons; now left).
    apply (put_all_keeps name key r batch _ c Hget Hm).
    intros r' H'. apply Hcons. now right.
  - destruct Hin as [Heq | Hin].
    + injection Heq as -> ->. rewrite String.eqb_refl in E. discriminate.
    + apply IH; [|assumption]. intros k' v' H'. apply Hf. now right.
Qed.

Lemma caches_keys_put_all
    (name : string) (batch : list (string * Response)) (cs : CacheStorage) :
  caches_has cs name = true ->
  caches_keys (put_all cs name batch) = caches_keys cs.
Proof.
  unfold put_all. revert cs.
  induction batch as [|[k v] batch IH]; intros cs Hhas; simpl; [reflexivity|].
  assert (caches_keys (caches_put cs name k v) = caches_keys cs) as Hk.
  { rewrite caches_keys_put_open. unfold caches_open. now rewrite Hhas. }
  rewrite IH; [exact Hk|]. unfold caches_has. now rewrite Hk.
Qed.

Lemma caches_has_open (cs : CacheStorage) (name : string) :
  caches_has (caches_open cs name) name = true.
Proof. apply caches_has_get. apply caches_get_open. Qed.


(** X5: the install listener of the current worker always fulfils, because
    a rejected [addAll] is caught and logged: it leaves the static bucket in
    place, creates no other bucket, and calls [skipWaiting] exactly when
    every precached URL was fetched with an acceptable response; in that
    case the static bucket holds, under each precached URL, the response
    fetched for it, and otherwise nothing was written.  The first-generation
    listener has no rejection handler: it fulfils only when the population
    succeeded. *)
Theorem X5_install_swallows_population_failure
    (origin : string) (fetch_of : string -> NetResult) (cs : CacheStorage) :
  let result := install origin fetch_of cs in
  let populated :=
    forall file, In file precache_list ->
      exists r, fetch_of (resolve origin file) = NetOk r /\
                addAll_accepts r = true in
  install_fulfilled result = true /\
  caches_keys (installed_store result)
    = caches_keys (caches_open cs STATIC_CACHE) /\
  caches_has (installed_store result) STATIC_CACHE = true /\
  (skipped_waiting result = true <-> populated) /\
  (skipped_waiting result = false ->
     installed_store result = caches_open cs STATIC_CACHE) /\
  (skipped_waiting result = true ->
     forall file r,
       In file precache_list ->
       fetch_of (resolve origin file) = NetOk r ->
       exists c, caches_get (installed_store result) STATIC_CACHE = Some c /\
                 cache_match c (resolve origin file) = Some r) /\
  (install_fulfilled (V1Lifecycle.install origin fetch_of cs) = true <->
     forall file, In file V1Lifecycle.ASSETS_TO_CACHE ->
       exists r, fetch_of (resolve origin file) = NetOk r /\
                 addAll_accepts r = true).
Proof.
  cbv zeta. unfold install, V1Lifecycle.install.
  pose proof (fetch_all_some_iff fetch_of (map (resolve origin) precache_list))
    as Hiff.
  pose proof (fetch_all_some_iff fetch_of
                (map (resolve origin) V1Lifecycle.ASSETS_TO_CACHE)) as Hiff1.
  assert (forall l,
            (forall u, In u (map (resolve origin) l) ->
               exists r, fetch_of u = NetOk r /\ addAll_accepts r = true) <->
            (forall file, In file l ->
               exists r, fetch_of (resolve origin file) = NetOk r /\
                         addAll_accepts r = true)) as Hmap.
  { intros l. split.
    - intros H file Hin. apply H. now apply in_map.
    - intros H u Hin. apply in_map_iff in Hin.
      destruct Hin as [file [<- Hin]]. now apply H. }
  rewrite Hmap in Hiff. rewrite Hmap in Hiff1.
  repeat split.
  - now destruct (fetch_all fetch_of (map (resolve origin) precache_list)).
  - destruct (fetch_all fetch_of (map (resolve origin) precache_list));
      simpl; [|reflexivity].
    apply caches_keys_put_all, caches_has_open.
  - destruct (fetch_all fetch_of (map (resolve origin) precache_list));
      simpl; [|apply caches_has_open].
    unfold caches_has. rewrite caches_keys_put_all by apply caches_has_open.
    apply caches_has_open.
  - destruct (fetch_all fetch_of (map (resolve origin) precache_list));
      simpl; [|discriminate].
    intros _. apply Hiff. eauto.
  - intros Hp. apply Hiff in Hp. destruct Hp as [b ->]. reflexivity.
  - destruct (fetch_all fetch_of (map (resolve origin) precache_list));
      simpl; [discriminate | reflexivity].
  - destruct (fetch_all fetch_of (map (resolve origin) precache_list))
      as [batch|] eqn:Hb; simpl; [|discriminate].
    intros _ file r Hin Hr.
    destruct (fetch_all_keys _ _ _ Hb) as [Hkeys Hvals].
    apply (put_all_lookup fetch_of); [exact Hvals|].
    assert (In (resolve origin file) (map fst batch)) as Hk.
    { rewrite Hkeys. now apply in_map. }
    apply in_map_iff in Hk. destruct Hk as [[k v] [Hfst Hkv]].
    simpl in Hfst. subst k.
    pose proof (Hvals _ _ Hkv) as Hv. rewrite Hr in Hv.
    injection Hv as ->. exact Hkv.
  - destruct (fetch_all fetch_of
                (map (resolve origin) V1Lifecycle.ASSETS_TO_CACHE));
      simpl; [|discriminate].
    intros _. apply Hiff1. eauto.
  - intros Hp. apply Hiff1 in Hp. destruct Hp as [b ->]. reflexivity.
Qed.

Lemma X5_install_swallows_population_failure_witness :
  install_fulfilled (install "https://zombie.example" (fun _ => NetFail) [])
  = true /\
  skipped_waiting (install "https://zombie.example" (fun _ => NetFail) [])
  = false.
Proof.
  split.
  - exact (proj1 (X5_install_swallows_population_failure
                    "https://zombie.example" (fun _ => NetFail) [])).
  - reflexivity.
Defined.

(** ** What stays cached *)

Lemma caches_match_put_kept
    (cs : CacheStorage) (b k key : string) (r old : Response) :
  caches_match cs key = Some old ->
  exists r', caches_match (caches_put cs b k r) key = Some r'.
Proof.
  intros Hold. destruct (String.eqb k key) eqn:E.
  - apply String.eqb_eq in E. subst k. apply caches_match_put_some.
  - apply String.eqb_neq in E. rewrite caches_match_put_other by assumption.
    eauto.
Qed.

Lemma message_handler_keeps_store
    (rejects : string -> bool) (cs : CacheStorage) (ev : MessageEvent) :
  type_is ev "CLEAR_CACHE" = false ->
  settle cs (message_handler rejects cs ev) = cs.
Proof.
  intros H. unfold message_handler, post. rewrite H.
  destruct (type_is ev "SKIP_WAITING"), (type_is ev "GET_CACHE_INFO"),
    (has_port ev); reflexivity.
Qed.

Lemma step_keeps_answerable
    (origin : string) (cs : CacheStorage) (e : Event) (key : string)
    (old : Response) :
  match e with
  | EvMessage ev _ => type_is ev "CLEAR_CACHE" = false
  | _ => True
  end ->
  caches_match cs key = Some old ->
  exists r', caches_match (step origin cs e) key = Some r'.
Proof.
  intros Hsafe Hold. unfold step, trace_of.
  destruct e as [req net | ev rejects |].
  - unfold fetch_handler.
    destruct (execute_trace_shape origin (classify req) net cs req)
      as [H | [b [r [H | H]]]]; rewrite H; simpl; [eauto| |].
    + now apply (caches_match_put_kept cs b (url req) key r old).
    + rewrite caches_match_open. eauto.
  - rewrite message_handler_keeps_store by assumption. eauto.
  - simpl. eauto.
Qed.

Lemma run_keeps_answerable
    (origin : string) (es : list Event) (cs : CacheStorage) (key : string)
    (cached : Response) :
  caches_match cs key = Some cached ->
  Forall (fun e => match e with
                   | EvMessage ev _ => type_is ev "CLEAR_CACHE" = false
                   | _ => True
                   end) es ->
  exists r, caches_match (run origin cs es) key = Some r.
Proof.
  intros Hcached Hnoclear. unfold run. revert cs cached Hcached.
  induction Hnoclear as [|e es He Hes IH]; intros cs cached Hcached; simpl.
  - eauto.
  - destruct (step_keeps_answerable origin cs e key cached He Hcached)
      as [r' Hr'].
    exact (IH _ r' Hr').
Qed.

(** X6: an entry, once the store answers for a URL, stays answerable: after
    any sequence of fetch, background and message events other than
    CLEAR_CACHE the store still has a response for that URL (possibly a
    newer one). *)
Theorem X6_cached_url_stays_answerable
    (origin : string) (es : list Event) (cs : CacheStorage) (key : string)
    (cached : Response)
    (Hcached : caches_match cs key = Some cached)
    (Hnoclear : Forall (fun e => match e with
                                 | EvMessage ev _ =>
                                     type_is ev "CLEAR_CACHE" = false
                                 | _ => True
                                 end) es) :
  exists r, caches_match (run origin cs es) key = Some r.
Proof.
  exact (run_keeps_answerable origin es cs key cached Hcached Hnoclear).
Qed.

Lemma X6_cached_url_stays_answerable_witness :
  exists r,
    caches_match
      (run "https://zombie.example"
         [(STATIC_CACHE, [("https://zombie.example/", offline_page)])]
         [EvFetch (mkRequest "https://zombie.example/" (Some "text/html"))
                  NetFail;
          EvMessage (mkMessage (Some "GET_CACHE_INFO") true) (fun _ => false);
          EvOther])
      "https://zombie.example/"
    = Some r.
Proof.
  apply (X6_cached_url_stays_answerable "https://zombie.example" _
           [(STATIC_CACHE, [("https://zombie.example/", offline_page)])]
           "https://zombie.example/" offline_page eq_refl).
  repeat constructor.
Defined.

(** ** From installation to offline use *)




Lemma caches_get_filter
    (f : string -> bool) (cs : CacheStorage) (name : string) :
  f name = true ->
  caches_get (filter (fun b => f (fst b)) cs) name = caches_get cs name.
Proof.
  intros Hf. induction cs as [|[n c] cs IH]; simpl; [reflexivity|].
  destruct (String.eqb n name) eqn:E.
  - apply String.eqb_eq in E. subst n. rewrite Hf. simpl.
    now rewrite String.eqb_refl.
  - destruct (f n); simpl; [rewrite E|]; exact IH.
Qed.




(** ** First generation *)

Lemma v1_trace_shape
    (origin : string) (net : NetResult) (cs : CacheStorage) (req : Request) :
  snd (V1.fetch_handler origin net cs req) = [] \/
  exists r,
    snd (V1.fetch_handler origin net cs req)
      = [cache_put_effect V1.CACHE_NAME req r] /\
    net = NetOk r /\ status r = 200 /\ type r = Basic /\
    request_match cs req = None /\ V1.intercepts req = true.
Proof.
  unfold V1.fetch_handler.
  destruct (V1.intercepts req); simpl; [|now left].
  destruct (request_match cs req); simpl; [now left|].
  destruct net as [response|].
  - destruct (Nat.eqb (status response) 200) eqn:E; simpl; [|now left].
    apply Nat.eqb_eq in E.
    destruct (type response) eqn:T; simpl; try (now left).
    right. exists response. unfold clone. repeat split; assumption.
  - destruct (accept req) as [a|]; [|now left].
    destruct (includes a "text/html"); now left.
Qed.

(** X8: the first-generation handler starts a write only when the request
    was intercepted, missed the store, and the network answered with status
    200 and type basic; the write goes to the one first-generation bucket
    under the request's URL.  When the cache accepts it (a GET request with
    an http(s) URL, a response without [Vary: *]) the same request is from
    then on served from the store whatever the network says; otherwise the
    put is rejected and only the empty bucket is left.  Any other response
    (another status, or a cors or opaque response) is handed to the page and
    no write is started. *)
Theorem X8_v1_stores_only_basic_200
    (origin : string) (cs : CacheStorage) (req : Request)
    (response : Response) (net' : NetResult)
    (Hint : V1.intercepts req = true)
    (Hmiss : request_match cs req = None) :
  let result := V1.fetch_handler origin (NetOk response) cs req in
  fst result = Resolved (Some response) /\
  (status response = 200 -> type response = Basic ->
   put_accepts req response = true ->
     snd result = [EPut V1.CACHE_NAME (url req) response] /\
     V1.fetch_handler origin net' (settle cs (snd result)) req
       = (Resolved (Some response), [])) /\
  (status response = 200 -> type response = Basic ->
   put_accepts req response = false ->
     snd result = [EPutRejected V1.CACHE_NAME (url req) response] /\
     settle cs (snd result) = caches_open cs V1.CACHE_NAME) /\
  (status response <> 200 \/ type response <> Basic -> snd result = []) /\
  (forall net b k r,
     In (EPut b k r) (snd (V1.fetch_handler origin net cs req)) ->
     net = NetOk r /\ status r = 200 /\ type r = Basic /\
     b = V1.CACHE_NAME /\ k = url req /\ put_accepts req r = true).
Proof.
  cbv zeta.
  assert (V1.fetch_handler origin (NetOk response) cs req =
          (Resolved (Some response),
           if negb (Nat.eqb (status response) 200) ||
              negb (match type response with Basic => true | _ => false end)
           then []
           else [cache_put_effect V1.CACHE_NAME req response])) as Hres.
  { unfold V1.fetch_handler, clone. rewrite Hint, Hmiss. simpl.
    now destruct (negb (Nat.eqb (status response) 200) || _). }
  rewrite Hres. simpl.
  split; [reflexivity|]. split; [|split; [|split]].
  - intros H200 HB Hacc. rewrite H200, HB. simpl.
    rewrite (cache_put_effect_accepted _ _ _ Hacc).
    split; [reflexivity|]. simpl.
    unfold V1.fetch_handler. rewrite Hint. simpl.
    pose proof (put_accepts_get _ _ Hacc) as Hget.
    rewrite (request_match_get _ _ Hget).
    rewrite caches_match_put_fresh; [reflexivity|].
    apply caches_match_filter_none.
    now rewrite (request_match_get _ _ Hget) in Hmiss.
  - intros H200 HB Hrej. rewrite H200, HB. simpl.
    now rewrite (cache_put_effect_rejected _ _ _ Hrej).
  - intros [H | H].
    + apply Nat.eqb_neq in H. now rewrite H.
    + destruct (Nat.eqb (status response) 200); simpl; [|reflexivity].
      destruct (type response); simpl; trivial. contradiction.
  - intros net b k r Hin.
    destruct (v1_trace_shape origin net cs req) as [H | [r0 [H Hrest]]];
      rewrite H in Hin; [destruct Hin|].
    destruct Hin as [Heq | []]. unfold cache_put_effect in Heq.
    destruct (put_accepts req r0) eqn:Hacc; [|discriminate].
    injection Heq as <- <- <-. tauto.
Qed.

Lemma X8_v1_stores_only_basic_200_witness :
  snd (V1.fetch_handler "https://zombie.example"
         (NetOk (mkResponse 200 "OK" [] "icon" Cors)) []
         (mkRequest "https://cdn-icons-png.flaticon.com/512/606/606553.png"
                    (Some "image/png")))
  = [].
Proof.
  refine (proj1 (proj2 (proj2 (proj2
    (X8_v1_stores_only_basic_200 "https://zombie.example" []
       (mkRequest "https://cdn-icons-png.flaticon.com/512/606/606553.png"
                  (Some "image/png"))
       (mkResponse 200 "OK" [] "icon" Cors) NetFail eq_refl eq_refl)))) _).
  right. discriminate.
Defined.

Lemma v1_keys_after_activate (rejects : string -> bool) (cs : CacheStorage) :
  caches_keys (settle cs (V1Lifecycle.activate rejects cs)) =
    filter (fun n => String.eqb n V1.CACHE_NAME || rejects n) (caches_keys cs).
Proof.
  unfold V1Lifecycle.activate.
  rewrite settle_app, settle_delete_all, settle_claim, caches_keys_filter.
  apply filter_ext_in_list. intros n Hin.
  destruct (String.eqb n V1.CACHE_NAME) eqn:E; simpl.
  - apply survives_other. unfold V1Lifecycle.prune. rewrite filter_In, E.
    intros [_ H]. discriminate.
  - apply survives_self. unfold V1Lifecycle.prune. apply filter_In.
    now rewrite E.
Qed.

Lemma v1_claimed_all_fulfilled (rejects : string -> bool) (cs : CacheStorage) :
  In EClaim (V1Lifecycle.activate rejects cs) ->
  all_fulfilled rejects (V1Lifecycle.prune (caches_keys cs)) = true.
Proof.
  unfold V1Lifecycle.activate, delete_all. intros H. apply in_app_or in H.
  destruct H as [H | H].
  - apply in_map_iff in H. destruct H as [n [Hn _]]. discriminate.
  - destruct (all_fulfilled _ _); [reflexivity | destruct H].
Qed.

Lemma v1_step_keys (origin : string) (cs : CacheStorage)
    (e : V1Lifecycle.Event) (name : string) :
  In name (caches_keys (V1Lifecycle.step origin cs e)) ->
  In name (caches_keys cs) \/ name = V1.CACHE_NAME.
Proof.
  unfold V1Lifecycle.step, V1Lifecycle.trace_of.
  destruct e as [req net | data].
  - destruct (v1_trace_shape origin net cs req) as [H | [r [H _]]];
      rewrite H; simpl; [now left|].
    unfold cache_put_effect. destruct (put_accepts req r); simpl.
    + apply caches_keys_put.
    + apply caches_keys_open.
  - unfold V1Lifecycle.message_handler.
    destruct data as [d|]; [destruct (String.eqb d "skipWaiting")|];
      simpl; now left.
Qed.

(** X9: once the first-generation activation has claimed the pages, the
    store holds no bucket but [zombie-survivor-v1], and fetch and message
    events of that worker keep it so.  Conversely the current worker's
    activation, once it has claimed, has removed the first-generation
    bucket: nothing cached by the old worker is carried over. *)
Theorem X9_generations_do_not_share_buckets
    (origin : string) (rejects : string -> bool) (cs0 : CacheStorage)
    (es : list V1Lifecycle.Event) :
  (In EClaim (V1Lifecycle.activate rejects cs0) ->
   forall name,
     In name (caches_keys
                (V1Lifecycle.run origin
                   (settle cs0 (V1Lifecycle.activate rejects cs0)) es)) ->
     name = V1.CACHE_NAME) /\
  (In EClaim (activate rejects cs0) ->
   caches_get (settle cs0 (activate rejects cs0)) V1.CACHE_NAME = None).
Proof.
  split.
  - intros Hclaimed. apply v1_claimed_all_fulfilled in Hclaimed.
    rewrite all_fulfilled_spec in Hclaimed.
    assert (forall name,
              In name (caches_keys
                         (settle cs0 (V1Lifecycle.activate rejects cs0))) ->
              name = V1.CACHE_NAME) as Hstart.
    { intros name Hin. rewrite v1_keys_after_activate in Hin.
      apply filter_In in Hin. destruct Hin as [Hin Hkeep].
      destruct (String.eqb name V1.CACHE_NAME) eqn:E;
        [now apply String.eqb_eq in E|].
      simpl in Hkeep. rewrite Hclaimed in Hkeep; [discriminate|].
      unfold V1Lifecycle.prune. apply filter_In. now rewrite E. }
    revert Hstart. unfold V1Lifecycle.run.
    generalize (settle cs0 (V1Lifecycle.activate rejects cs0)) as cs.
    induction es as [|e es IH]; intros cs Hcs; simpl; [exact Hcs|].
    apply IH. intros name Hin. apply v1_step_keys in Hin.
    destruct Hin as [Hin | ->]; [now apply Hcs | reflexivity].
  - intros Hclaimed. apply claimed_all_fulfilled in Hclaimed.
    destruct (caches_get _ V1.CACHE_NAME) as [c|] eqn:Hget; [|reflexivity].
    assert (caches_has (settle cs0 (activate rejects cs0)) V1.CACHE_NAME
            = true) as Hhas by (apply caches_has_get; eauto).
    unfold caches_has in Hhas. apply existsb_exists in Hhas.
    destruct Hhas as [n [Hin Heq]]. apply String.eqb_eq in Heq. subst n.
    assert (prune (caches_keys (settle cs0 (activate rejects cs0))) = [])
      as Hnil.
    { rewrite prune_after_activate. now apply filter_rejects_nil. }
    pose proof (proj1 (prune_nil_iff _) Hnil _ Hin) as Hcur.
    simpl in Hcur. destruct Hcur as [H | [H | []]]; discriminate H.
Qed.

Lemma X9_generations_do_not_share_buckets_witness :
  caches_get
    (settle [("zombie-survivor-v1", []); (STATIC_CACHE, [])]
       (activate (fun _ => false)
          [("zombie-survivor-v1", []); (STATIC_CACHE, [])]))
    V1.CACHE_NAME
  = None.
Proof.
  apply (proj2 (X9_generations_do_not_share_buckets "https://zombie.example"
                  (fun _ => false)
                  [("zombie-survivor-v1", []); (STATIC_CACHE, [])] [])).
  simpl. right. left. reflexivity.
Defined.

Lemma addAll_lookup
    (origin : string) (fetch_of : string -> NetResult) (name : string)
    (files : list string) (batch : list (string * Response))
    (cs : CacheStorage) (file : string) :
  fetch_all fetch_of (map (resolve origin) files) = Some batch ->
  In file files ->
  exists c r,
    caches_get (put_all cs name batch) name = Some c /\
    cache_match c (resolve origin file) = Some r /\
    fetch_of (resolve origin file) = NetOk r.
Proof.
  intros Hb Hin. destruct (fetch_all_keys _ _ _ Hb) as [Hkeys Hvals].
  assert (In (resolve origin file) (map fst batch)) as Hk.
  { rewrite Hkeys. now apply in_map. }
  apply in_map_iff in Hk. destruct Hk as [[k r] [Hfst Hkv]].
  simpl in Hfst. subst k.
  destruct (put_all_lookup fetch_of name _ r batch cs Hvals Hkv)
    as [c [Hget Hm]].
  exists c, r. split; [exact Hget|]. split; [exact Hm|]. now apply Hvals.
Qed.

Lemma v1_activate_keeps_bucket (rejects : string -> bool) (cs : CacheStorage) :
  caches_get (settle cs (V1Lifecycle.activate rejects cs)) V1.CACHE_NAME
  = caches_get cs V1.CACHE_NAME.
Proof.
  unfold V1Lifecycle.activate.
  rewrite settle_app, settle_delete_all, settle_claim.
  apply (caches_get_filter
           (survives rejects (V1Lifecycle.prune (caches_keys cs)))).
  apply survives_other. unfold V1Lifecycle.prune. rewrite filter_In.
  rewrite String.eqb_refl. intros [_ H]. discriminate.
Qed.

Lemma v1_run_keeps_answerable
    (origin : string) (es : list V1Lifecycle.Event) (cs : CacheStorage)
    (key : string) (cached : Response) :
  caches_match cs key = Some cached ->
  exists r, caches_match (V1Lifecycle.run origin cs es) key = Some r.
Proof.
  unfold V1Lifecycle.run. revert cs cached.
  induction es as [|e es IH]; intros cs cached Hc; simpl; [eauto|].
  assert (exists r', caches_match (V1Lifecycle.step origin cs e) key = Some r')
    as [r' Hr'].
  { unfold V1Lifecycle.step, V1Lifecycle.trace_of.
    destruct e as [req net | data].
    - destruct (v1_trace_shape origin net cs req) as [H | [r [H _]]];
        rewrite H; simpl; [eauto|].
      unfold cache_put_effect. destruct (put_accepts req r); simpl.
      + now apply (caches_match_put_kept cs _ (url req) key r cached).
      + rewrite caches_match_open. eauto.
    - unfold V1Lifecycle.message_handler.
      destruct data as [d|]; [destruct (String.eqb d "skipWaiting")|];
        simpl; eauto. }
  exact (IH _ r' Hr').
Qed.

(** X10: after a first-generation installation that succeeded, and whatever
    the activation and later fetch and message events did, an intercepted
    request that accepts HTML always gets a response, online or offline: at
    worst the precached [/index.html].  On a miss with the network down the
    handler synthesizes nothing: it resolves with what the store has for
    [/index.html] when the Accept header contains [text/html], with no
    response when it does not, and rejects when the header is absent. *)
Theorem X10_v1_offline_navigation
    (origin : string) (fetch_of : string -> NetResult) (cs0 : CacheStorage)
    (rejects : string -> bool) (es : list V1Lifecycle.Event)
    (req : Request) (a : string) (net : NetResult)
    (Hinstalled :
       install_fulfilled (V1Lifecycle.install origin fetch_of cs0) = true)
    (Hint : V1.intercepts req = true)
    (Haccept : accept req = Some a)
    (Hhtml : includes a "text/html" = true) :
  let installed := installed_store (V1Lifecycle.install origin fetch_of cs0) in
  let cs := V1Lifecycle.run origin
              (settle installed (V1Lifecycle.activate rejects installed)) es in
  (exists r, fst (V1.fetch_handler origin net cs req) = Resolved (Some r)) /\
  (forall cs' req',
     V1.intercepts req' = true -> request_match cs' req' = None ->
     V1.fetch_handler origin NetFail cs' req' =
       (match accept req' with
        | None => Rejected
        | Some a' =>
            if includes a' "text/html"
            then Resolved (caches_match cs' (resolve origin "/index.html"))
            else Resolved None
        end, [])).
Proof.
  cbv zeta. split.
  - revert Hinstalled. unfold V1Lifecycle.install.
    destruct (fetch_all fetch_of
                (map (resolve origin) V1Lifecycle.ASSETS_TO_CACHE))
      as [batch|] eqn:Hb; simpl; [|discriminate].
    intros _.
    destruct (addAll_lookup origin fetch_of V1.CACHE_NAME _ batch
                (caches_open cs0 V1.CACHE_NAME) "/index.html" Hb)
      as [c [r [Hget [Hm _]]]]; [right; now left|].
    rewrite <- (v1_activate_keeps_bucket rejects) in Hget.
    destruct (caches_get_match _ _ _ _ _ Hget Hm) as [r1 Hr1].
    destruct (v1_run_keeps_answerable origin es _ _ r1 Hr1) as [r2 Hr2].
    unfold V1.fetch_handler. rewrite Hint. simpl.
    destruct (request_match _ req) as [hit|]; [now exists hit|].
    destruct net as [response|].
    + exists response.
      now destruct (negb (Nat.eqb (status response) 200) || _).
    + rewrite Haccept, Hhtml, Hr2. now exists r2.
  - intros cs' req' Hint' Hmiss'. unfold V1.fetch_handler.
    rewrite Hint', Hmiss'. simpl.
    destruct (accept req') as [a'|]; [|reflexivity].
    now destruct (includes a' "text/html").
Qed.

Lemma X10_v1_offline_navigation_witness :
  let fetch_of := fun _ : string => NetOk (mkResponse 200 "OK" [] "page" Basic) in
  let installed :=
    installed_store (V1Lifecycle.install "https://zombie.example" fetch_of []) in
  exists r,
    fst (V1.fetch_handler "https://zombie.example" NetFail
           (V1Lifecycle.run "https://zombie.example"
              (settle installed
                      (V1Lifecycle.activate (fun _ => false) installed)) [])
           (mkRequest "https://zombie.example/play" (Some "text/html")))
    = Resolved (Some r).
Proof.
  exact (proj1 (X10_v1_offline_navigation "https://zombie.example"
                  (fun _ => NetOk (mkResponse 200 "OK" [] "page" Basic)) []
                  (fun _ => false) []
                  (mkRequest "https://zombie.example/play" (Some "text/html"))
                  "text/html" NetFail eq_refl eq_refl eq_refl eq_refl)).
Defined.

(** ** Control messages *)

Lemma replies_app (t1 t2 : list Effect) :
  replies (t1 ++ t2)%list = (replies t1 ++ replies t2)%list.
Proof. unfold replies. apply flat_map_app. Qed.

Lemma replies_post_no_port (ev : MessageEvent) (m : Reply) :
  has_port ev = false -> post ev m = [].
Proof. intros H. unfold post. now rewrite H. Qed.

(** X11: the message listener never writes to a bucket; a message other
    than CLEAR_CACHE leaves the store as it is; a message whose type is none
    of the three known ones, or that has no type, has no effect at all; and
    without a reply port nothing is ever posted, although a CLEAR_CACHE
    still deletes the buckets. *)
Theorem X11_message_handler_effects
    (rejects : string -> bool) (cs : CacheStorage) (ev : MessageEvent) :
  (forall b k r, ~ In (EPut b k r) (message_handler rejects cs ev)) /\
  (type_is ev "CLEAR_CACHE" = false ->
     settle cs (message_handler rejects cs ev) = cs) /\
  (type_is ev "SKIP_WAITING" = false ->
   type_is ev "GET_CACHE_INFO" = false ->
   type_is ev "CLEAR_CACHE" = false ->
     message_handler rejects cs ev = []) /\
  (has_port ev = false ->
     replies (message_handler rejects cs ev) = [] /\
     (type_is ev "CLEAR_CACHE" = true ->
        caches_keys (settle cs (message_handler rejects cs ev))
        = filter rejects (caches_keys cs))).
Proof.
  split; [intros b k r; apply message_handler_no_put|].
  split; [apply message_handler_keeps_store|].
  split.
  - intros H1 H2 H3. unfold message_handler. now rewrite H1, H2, H3.
  - intros Hport. split.
    + unfold message_handler, clear_cache.
      rewrite !(replies_post_no_port ev _ Hport).
      rewrite !replies_app.
      destruct (type_is ev "SKIP_WAITING"), (type_is ev "GET_CACHE_INFO"),
        (type_is ev "CLEAR_CACHE"); simpl; trivial;
        rewrite replies_app, replies_delete_all;
        now destruct (all_fulfilled rejects (caches_keys cs)).
    + intros Hclear. rewrite (message_handler_clear rejects cs ev Hclear).
      apply caches_keys_after_clear.
Qed.

Lemma X11_message_handler_effects_witness :
  message_handler (fun _ => false) [(STATIC_CACHE, [])]
    (mkMessage (Some "PING") true)
  = [].
Proof.
  exact (proj1 (proj2 (proj2
    (X11_message_handler_effects (fun _ => false) [(STATIC_CACHE, [])]
       (mkMessage (Some "PING") true))))
    eq_refl eq_refl eq_refl).
Defined.

(** ** Notification clicks *)

Lemma first_focusable_some
    (clientList : list WindowClient) (c : WindowClient) :
  first_focusable clientList = Some c ->
  In c clientList /\ client_url c = "/" /\ can_focus c = true.
Proof.
  induction clientList as [|x l IH]; simpl; [discriminate|].
  destruct (String.eqb (client_url x) "/" && can_focus x) eqn:E.
  - intros H. injection H as <-. apply andb_true_iff in E.
    destruct E as [Hu Hf]. apply String.eqb_eq in Hu. auto.
  - intros H. destruct (IH H) as [Hin Hrest]. auto.
Qed.

Lemma first_focusable_none (clientList : list WindowClient) :
  (forall c, In c clientList -> client_url c <> "/" \/ can_focus c = false) ->
  first_focusable clientList = None.
Proof.
  induction clientList as [|x l IH]; intros H; simpl; [reflexivity|].
  destruct (H x (or_introl eq_refl)) as [Hu | Hf].
  - apply String.eqb_neq in Hu. rewrite Hu. simpl.
    apply IH. intros c Hc. apply H. now right.
  - rewrite Hf, andb_false_r. apply IH. intros c Hc. apply H. now right.
Qed.

(** X12: a notification click always closes the notification; only the
    [play] action does more.  Then the first window client (in list order)
    whose URL is exactly ["/"] and that can be focused is focused; since the
    comparison is with the literal ["/"], clients whose URL is anything else
    (an absolute URL, say) are never focused, and a new window on ["/"] is
    opened instead when [openWindow] is available. *)
Theorem X12_notificationclick
    (action : string) (clientList : list WindowClient) (can_open : bool) :
  fst (notificationclick action clientList can_open) = true /\
  (action <> "play" ->
     snd (notificationclick action clientList can_open) = NoAction) /\
  (forall c,
     snd (notificationclick action clientList can_open) = Focus c ->
     action = "play" /\ In c clientList /\
     client_url c = "/" /\ can_focus c = true) /\
  (forall pre c post,
     action = "play" ->
     clientList = (pre ++ c :: post)%list ->
     (forall c', In c' pre -> client_url c' <> "/" \/ can_focus c' = false) ->
     client_url c = "/" -> can_focus c = true ->
     snd (notificationclick action clientList can_open) = Focus c) /\
  (action = "play" ->
   (forall c, In c clientList -> client_url c <> "/") ->
     snd (notificationclick action clientList can_open)
     = if can_open then OpenWindow "/" else NoAction).
Proof.
  unfold notificationclick. simpl.
  split; [reflexivity|]. split; [|split; [|split]].
  - intros H. apply String.eqb_neq in H. now rewrite H.
  - intros c. destruct (String.eqb action "play") eqn:E; [|discriminate].
    apply String.eqb_eq in E.
    destruct (first_focusable clientList) as [c0|] eqn:F.
    + intros H. injection H as <-.
      split; [assumption | now apply first_focusable_some].
    + destruct can_open; discriminate.
  - intros pre c post -> -> Hpre Hu Hf. simpl.
    induction pre as [|x pre IH]; simpl.
    + now rewrite Hu, Hf.
    + destruct (Hpre x (or_introl eq_refl)) as [Hx | Hx].
      * apply String.eqb_neq in Hx. rewrite Hx. simpl.
        apply IH. intros c' Hc'. apply Hpre. now right.
      * rewrite Hx, andb_false_r.
        apply IH. intros c' Hc'. apply Hpre. now right.
  - intros -> Hnone. simpl. rewrite first_focusable_none; [reflexivity|].
    intros c Hc. left. now apply Hnone.
Qed.

Lemma X12_notificationclick_witness :
  snd (notificationclick "play"
         [mkClient "https://zombie.example/" true] true)
  = OpenWindow "/".
Proof.
  refine (proj2 (proj2 (proj2 (proj2
    (X12_notificationclick "play"
       [mkClient "https://zombie.example/" true] true)))) eq_refl _).
  intros c [<- | []]. discriminate.
Defined.

(** ** Placeholder files *)

Lemma startsWith_drop (s pat : string) :
  startsWith s pat = true ->
  s = pat ++ GenerateVideos.drop (String.length pat) s.
Proof.
  revert s. induction pat as [|c pat IH]; intros s; simpl.
  - reflexivity.
  - destruct s as [|a s]; cbn [startsWith]; [discriminate|].
    rewrite andb_true_iff, Ascii.eqb_eq. intros [-> H].
    simpl. f_equal. now apply IH.
Qed.

Lemma replace_absent (s pat rep : string) :
  includes s pat = false -> GenerateVideos.replace s pat rep = s.
Proof.
  induction s as [|c s IH]; cbn [includes GenerateVideos.replace].
  - rewrite orb_false_r. now intros ->.
  - rewrite orb_false_iff. intros [-> H]. now rewrite IH.
Qed.

Lemma replace_first (s pat rep : string) :
  includes s pat = true ->
  exists a b,
    s = a ++ pat ++ b /\
    GenerateVideos.replace s pat rep = a ++ rep ++ b /\
    forall a' b', s = a' ++ pat ++ b' -> String.length a <= String.length a'.
Proof.
  induction s as [|c s IH]; cbn [includes GenerateVideos.replace].
  - rewrite orb_false_r. intros H. rewrite H.
    exists "", (GenerateVideos.drop (String.length pat) "").
    split; [now apply startsWith_drop|]. split; [reflexivity|].
    intros a' b' _. simpl. lia.
  - destruct (startsWith (String c s) pat) eqn:E.
    + intros _. exists "", (GenerateVideos.drop (String.length pat) (String c s)).
      split; [now apply startsWith_drop|]. split; [reflexivity|].
      intros a' b' _. simpl. lia.
    + simpl. intros H. destruct (IH H) as [a [b [Hs [Hr Hmin]]]].
      exists (String c a), b. split; [simpl; now rewrite <- Hs|].
      split; [simpl; now rewrite Hr|].
      intros a' b' Heq. destruct a' as [|c' a'].
      * assert (startsWith (String c s) pat = true) as Hc; [|congruence].
        apply startsWith_spec. now exists b'.
      * simpl in Heq. injection Heq as _ Heq. simpl.
        apply le_n_S. now apply (Hmin a' b').
Qed.

Lemma replace_mp4_suffix (stem : string) :
  includes stem ".mp4" = false ->
  GenerateVideos.replace (stem ++ ".mp4") ".mp4" ".html" = stem ++ ".html".
Proof.
  induction stem as [|c stem IH]; [reflexivity|].
  cbn [includes]. rewrite orb_false_iff. intros [Hhead Htail].
  change (String c stem ++ ".mp4") with (String c (stem ++ ".mp4")).
  cbn [GenerateVideos.replace].
  replace (startsWith (String c (stem ++ ".mp4")) ".mp4") with false.
  - change (String c stem ++ ".html") with (String c (stem ++ ".html")).
    f_equal. now apply IH.
  - symmetry. clear IH Htail.
    destruct stem as [|c1 [|c2 [|c3 rest]]]; simpl in *;
      rewrite ?andb_false_r; trivial.
    now rewrite startsWith_nil in *.
Qed.

Lemma string_app_assoc (s1 s2 s3 : string) :
  (s1 ++ s2) ++ s3 = s1 ++ s2 ++ s3.
Proof. induction s1; simpl; congruence. Qed.

Lemma placeholder_has_color (color text : string) :
  includes (GenerateVideos.placeholder_html color text)
           ("background: " ++ color ++ ";") = true.
Proof.
  apply includes_spec. unfold GenerateVideos.placeholder_html.
  exists (GenerateVideos.newline ++
          "<!DOCTYPE html>" ++ GenerateVideos.newline ++
          "<html>" ++ GenerateVideos.newline ++
          "<body>" ++ GenerateVideos.newline ++
          "  <div style=" ++ GenerateVideos.quote ++
          "width: 100px; height: 100px; ").
  eexists. rewrite !string_app_assoc. cbn. reflexivity.
Qed.

Lemma placeholder_has_text (color text : string) :
  includes (GenerateVideos.placeholder_html color text)
           ("    " ++ text ++ GenerateVideos.newline) = true.
Proof.
  apply includes_spec. unfold GenerateVideos.placeholder_html.
  exists (GenerateVideos.newline ++
          "<!DOCTYPE html>" ++ GenerateVideos.newline ++
          "<html>" ++ GenerateVideos.newline ++
          "<body>" ++ GenerateVideos.newline ++
          "  <div style=" ++ GenerateVideos.quote ++
          "width: 100px; height: 100px; background: " ++ color ++
          "; color: white; display: flex; align-items: center; justify-content: center; font-family: Arial;"
          ++ GenerateVideos.quote ++ ">" ++ GenerateVideos.newline).
  eexists. rewrite !string_app_assoc. cbn. reflexivity.
Qed.

(** X13: [createVideoPlaceholder] writes to the file name with its first
    [.mp4] replaced by [.html], the rest of the name unchanged; a name that
    ends in [.mp4] and has no other [.mp4] gets [.html] in place of that
    extension, while a name without [.mp4] is itself overwritten with the
    HTML.  The content carries the colour and the label, with [red] and
    [Zombie] as defaults, and the log line names the original file. *)
Theorem X13_placeholder_target
    (filename : string) (color text : option string) :
  let p := GenerateVideos.createVideoPlaceholder filename color text in
  (includes filename ".mp4" = false ->
     GenerateVideos.written_path p = filename) /\
  (includes filename ".mp4" = true ->
     exists a b,
       filename = a ++ ".mp4" ++ b /\
       GenerateVideos.written_path p = a ++ ".html" ++ b /\
       forall a' b', filename = a' ++ ".mp4" ++ b' ->
                     String.length a <= String.length a') /\
  (forall stem,
     includes stem ".mp4" = false -> filename = stem ++ ".mp4" ->
     GenerateVideos.written_path p = stem ++ ".html") /\
  includes (GenerateVideos.written_content p)
           ("background: " ++ match color with Some c => c | None => "red" end
            ++ ";") = true /\
  includes (GenerateVideos.written_content p)
           ("    " ++ match text with Some t => t | None => "Zombie" end
            ++ GenerateVideos.newline) = true /\
  GenerateVideos.logged p = "Created placeholder for: " ++ filename.
Proof.
  cbv zeta. unfold GenerateVideos.createVideoPlaceholder.
  cbn [GenerateVideos.written_path GenerateVideos.written_content
       GenerateVideos.logged].
  split; [apply replace_absent|].
  split; [apply replace_first|].
  split; [intros stem Hs ->; now apply replace_mp4_suffix|].
  split; [|split; [|reflexivity]].
  - apply placeholder_has_color.
  - apply placeholder_has_text.
Qed.

Lemma X13_placeholder_target_witness :
  GenerateVideos.written_path
    (GenerateVideos.createVideoPlaceholder "assets/zombies/zombie1.mp4"
       (Some "#dc2626") (Some "Zombie 1"))
  = "assets/zombies/zombie1.html".
Proof.
  exact (proj1 (proj2 (proj2
    (X13_placeholder_target "assets/zombies/zombie1.mp4"
       (Some "#dc2626") (Some "Zombie 1"))))
    "assets/zombies/zombie1" eq_refl eq_refl).
Defined.

(** ** Basenames *)

Lemma pop_cons (x : string) (l : list string) :
  l <> [] -> pop (x :: l) = pop l.
Proof. destruct l; [contradiction | reflexivity]. Qed.

Lemma split_pop_spec (sep : ascii) (s : string) :
  exists dir b,
    pop (split sep s) = Some b /\
    s = dir ++ b /\
    includes b (String sep "") = false /\
    (List.length (split sep s) = 1 -> dir = "") /\
    (1 < List.length (split sep s) -> endsWith dir (String sep "") = true).
Proof.
  induction s as [|c s IH].
  - exists "", "". simpl. repeat split; trivial. intros H. lia.
  - destruct IH as [dir [b [Hpop [Hs [Hb [Hone Hmany]]]]]].
    pose proof (split_not_nil sep s) as Hne.
    cbn [split]. destruct (Ascii.eqb c sep) eqn:E.
    + apply Ascii.eqb_eq in E. subst c.
      exists (String sep dir), b.
      rewrite pop_cons by assumption.
      split; [assumption|]. split; [simpl; now rewrite <- Hs|].
      split; [assumption|]. split.
      * simpl. intros H. destruct (split sep s); [contradiction | discriminate].
      * intros _. cbn [endsWith].
        destruct (split sep s) as [|x [|y l]] eqn:Hsp; [contradiction| |].
        -- rewrite (Hone eq_refl). now rewrite String.eqb_refl.
        -- rewrite Hmany by (simpl; lia). apply orb_true_r.
    + destruct (split sep s) as [|seg [|x xs]] eqn:Hsp; [contradiction| |].
      * simpl in Hpop. injection Hpop as <-.
        rewrite (Hone eq_refl) in Hs. simpl in Hs. subst s.
        exists "", (String c seg). simpl. repeat split; trivial.
        -- rewrite E. simpl. cbn [includes] in Hb.
           destruct seg; simpl in *; assumption.
        -- intros H. lia.
      * exists (String c dir), b.
        split; [exact Hpop|]. split; [simpl; now rewrite <- Hs|].
        split; [assumption|]. split.
        -- simpl. discriminate.
        -- intros _. cbn [endsWith].
           rewrite Hmany by (simpl; lia). apply orb_true_r.
Qed.

Lemma pop_app_last (l : list string) (x : string) :
  pop (l ++ [x])%list = Some x.
Proof.
  induction l as [|y l IH]; [reflexivity|].
  change ((y :: l) ++ [x])%list with (y :: (l ++ [x]))%list.
  rewrite pop_cons; [exact IH | now destruct l].
Qed.

Lemma split_trailing (sep : ascii) (s : string) :
  exists segs, segs <> [] /\
               split sep (s ++ String sep "") = (segs ++ [""])%list.
Proof.
  induction s as [|c s IH].
  - exists [""]. simpl. rewrite Ascii.eqb_refl. split; [discriminate | reflexivity].
  - destruct IH as [segs [Hne Hsp]].
    change (String c s ++ String sep "") with (String c (s ++ String sep "")).
    cbn [split]. rewrite Hsp. destruct (Ascii.eqb c sep).
    + exists ("" :: segs). split; [discriminate | reflexivity].
    + destruct segs as [|seg segs]; [contradiction|].
      exists (String c seg :: segs). split; [discriminate | reflexivity].
Qed.

Lemma basename_trailing_slash (file : string) :
  endsWith file "/" = true -> basename file = "".
Proof.
  intros H. apply endsWith_spec in H. destruct H as [a ->].
  unfold basename. destruct (split_trailing "/" a) as [segs [_ ->]].
  now rewrite pop_app_last.
Qed.

(** X14: [file.split('/').pop()] is the part of [file] after its last
    slash: the file is a directory part, empty or ending in a slash,
    followed by the basename, and the basename has no slash.  A name without
    slash is its own basename, and a name that ends in a slash has the empty
    basename. *)
Theorem X14_basename_is_last_segment (file : string) :
  (exists dir,
     file = dir ++ basename file /\
     (dir = "" \/ endsWith dir "/" = true)) /\
  includes (basename file) "/" = false /\
  (includes file "/" = false -> basename file = file) /\
  (endsWith file "/" = true -> basename file = "").
Proof.
  destruct (split_pop_spec "/" file) as [dir [b [Hpop [Hs [Hb [Hone Hmany]]]]]].
  assert (basename file = b) as Hbase by (unfold basename; now rewrite Hpop).
  assert (dir = "" \/ endsWith dir "/" = true) as Hdir.
  { pose proof (split_not_nil "/" file) as Hne.
    destruct (split "/" file) as [|x [|y l]]; [contradiction| |].
    - left. now apply Hone.
    - right. apply Hmany. simpl. lia. }
  rewrite Hbase.
  split; [exists dir; split; assumption|].
  split; [assumption|].
  split; [|intros H; rewrite <- Hbase; now apply basename_trailing_slash].
  intros Hno. destruct Hdir as [-> | Hd]; [now rewrite Hs|].
  apply endsWith_spec in Hd. destruct Hd as [a ->].
  assert (includes file "/" = true) as Hc; [|congruence].
  apply includes_spec. exists a, b. rewrite Hs. apply string_app_assoc.
Qed.

Lemma X14_basename_is_last_segment_witness :
  basename "manifest.json" = "manifest.json".
Proof.
  exact (proj1 (proj2 (proj2 (X14_basename_is_last_segment "manifest.json")))
           eq_refl).
Defined.

(** X15: whatever the static asset list, one entry that ends in a slash
    (the root ["/"], or any directory URL) has the empty basename and makes
    the static-asset test succeed for every URL: every request that is
    neither a socket request nor a firebase/googleapis request is then
    cache-first, and none reaches the default network-first branch. *)
Theorem X15_slash_entry_matches_every_url
    (files : list string) (entry : string)
    (Hin : In entry files)
    (Hslash : endsWith entry "/" = true) :
  (forall href, static_match files href = true) /\
  (forall req,
     is_socket (url req) = false -> is_api (url req) = false ->
     classify_with files req = CacheFirst) /\
  (forall req, classify_with files req <> DefaultNetworkFirst).
Proof.
  assert (forall href, static_match files href = true) as Hall.
  { intros href. unfold static_match. apply existsb_exists.
    exists entry. split; [assumption|].
    rewrite (basename_trailing_slash entry Hslash). apply includes_nil. }
  split; [exact Hall|]. split.
  - intros req Hs Ha. now rewrite classify_with_cases, Hs, Ha, Hall.
  - intros req. rewrite classify_with_cases, Hall.
    destruct (is_socket (url req)), (is_api (url req)); discriminate.
Qed.

Lemma X15_slash_entry_matches_every_url_witness :
  classify_with ["https://zombie.example/assets/"; "/logo.png"]
    (mkRequest "https://zombie.example/api/scores" (Some "application/json"))
  = CacheFirst.
Proof.
  exact (proj1 (proj2
    (X15_slash_entry_matches_every_url
       ["https://zombie.example/assets/"; "/logo.png"]
       "https://zombie.example/assets/" (or_introl eq_refl) eq_refl))
    (mkRequest "https://zombie.example/api/scores" (Some "application/json"))
    eq_refl eq_refl).
Defined.

(** ** After a reset *)

(** X16: a CLEAR_CACHE whose deletions all fulfil leaves an empty store and
    nothing repopulates it: with the network down, a cache-first request
    then resolves with no response, precached or not.  Buckets come back
    lazily: the first cache-first request answered 200 recreates the static
    bucket, and only that one; the bucket holds the response when the cache
    accepts the write (a GET request with an http(s) URL, a response without
    [Vary: *]) and stays empty when the put is rejected. *)
Theorem X16_clear_cache_ends_offline_support
    (origin : string) (rejects : string -> bool) (cs : CacheStorage)
    (ev : MessageEvent) (req : Request)
    (Hclear : type_is ev "CLEAR_CACHE" = true)
    (Hall : all_fulfilled rejects (caches_keys cs) = true)
    (Hsock : is_socket (url req) = false)
    (Hapi : is_api (url req) = false) :
  let cs' := step origin cs (EvMessage ev rejects) in
  cs' = [] /\
  fetch_handler origin NetFail cs' req = (Resolved None, []) /\
  (forall response,
     status response = 200 -> put_accepts req response = true ->
     step origin cs' (EvFetch req (NetOk response))
     = [(STATIC_CACHE, [(url req, response)])]) /\
  (forall response,
     status response = 200 -> put_accepts req response = false ->
     step origin cs' (EvFetch req (NetOk response))
     = [(STATIC_CACHE, [])]).
Proof.
  cbv zeta.
  assert (step origin cs (EvMessage ev rejects) = []) as Hempty.
  { unfold step, trace_of. rewrite (message_handler_clear rejects cs ev Hclear).
    pose proof (caches_keys_after_clear rejects cs ev) as Hk.
    rewrite (filter_rejects_nil _ _ Hall) in Hk.
    destruct (settle cs (clear_cache rejects cs ev)); [reflexivity|].
    discriminate Hk. }
  rewrite Hempty.
  assert (forall n, fetch_handler origin n [] req = cache_first n [] req) as Hcf.
  { intros n. unfold fetch_handler. now rewrite classify_cases, Hsock, Hapi. }
  assert (request_match [] req = None) as Hmiss
    by (unfold request_match; now destruct (is_get req)).
  split; [reflexivity|]. split; [|split].
  - rewrite Hcf. unfold cache_first. now rewrite Hmiss.
  - intros response H200 Hacc. unfold step, trace_of. rewrite Hcf.
    unfold cache_first, clone. rewrite Hmiss, H200. simpl.
    now rewrite (cache_put_effect_accepted _ _ _ Hacc).
  - intros response H200 Hrej. unfold step, trace_of. rewrite Hcf.
    unfold cache_first, clone. rewrite Hmiss, H200. simpl.
    now rewrite (cache_put_effect_rejected _ _ _ Hrej).
Qed.

Lemma X16_clear_cache_ends_offline_support_witness :
  fetch_handler "https://zombie.example" NetFail
    (step "https://zombie.example"
       [(STATIC_CACHE, [("https://zombie.example/", offline_page)])]
       (EvMessage (mkMessage (Some "CLEAR_CACHE") true) (fun _ => false)))
    (mkRequest "https://zombie.example/" (Some "text/html"))
  = (Resolved None, []).
Proof.
  exact (proj1 (proj2
    (X16_clear_cache_ends_offline_support "https://zombie.example"
       (fun _ => false)
       [(STATIC_CACHE, [("https://zombie.example/", offline_page)])]
       (mkMessage (Some "CLEAR_CACHE") true)
       (mkRequest "https://zombie.example/" (Some "text/html"))
       eq_refl eq_refl eq_refl eq_refl))).
Defined.

(** ** The static-asset test on any list *)

(** X17: whatever the static asset list, a request that is neither a socket
    request nor a firebase/googleapis request is cache-first exactly when
    the basename of some entry occurs somewhere in its URL: the test of the
    handler is substring containment.  A URL that ends with such a basename
    is therefore cache-first, and a request that is not cache-first falls to
    the default network-first branch. *)
Theorem X17_static_match_is_substring
    (files : list string) (req : Request)
    (Hsock : is_socket (url req) = false)
    (Hapi : is_api (url req) = false) :
  (classify_with files req = CacheFirst <->
     exists file, In file files /\
       exists a b, url req = a ++ basename file ++ b) /\
  (spec_static_match files (url req) = true ->
     classify_with files req = CacheFirst) /\
  (classify_with files req <> CacheFirst ->
     classify_with files req = DefaultNetworkFirst).
Proof.
  rewrite classify_with_cases, Hsock, Hapi, <- static_match_spec.
  destruct (static_match files (url req)) eqn:Hm.
  - repeat split; trivial; congruence.
  - repeat split; try congruence.
    intros Hs. apply spec_static_match_spec in Hs.
    destruct Hs as [file [Hin [a Ha]]].
    assert (static_match files (url req) = true) as Hc; [|congruence].
    apply static_match_spec. exists file. split; [assumption|].
    exists a, "". rewrite Ha. f_equal.
    generalize (basename file) as t. induction t; simpl; congruence.
Qed.

Lemma X17_static_match_is_substring_witness :
  classify_with STATIC_FILES
    (mkRequest "https://zombie.example/play/index.html?v=2" (Some "text/html"))
  = CacheFirst.
Proof.
  refine (proj2 (proj1 (X17_static_match_is_substring STATIC_FILES
           (mkRequest "https://zombie.example/play/index.html?v=2"
                      (Some "text/html"))
           eq_refl eq_refl)) _).
  exists "/index.html". split; [right; now left|].
  exists "https://zombie.example/play/", "?v=2". reflexivity.
Defined.
